(** * ol/format/IGC: the IGC flight-log reader, embedded and verified

    The development follows [src/ol/format/IGC.js].  Text is a [string] of
    8-bit code units (IGC is an ASCII format); JavaScript numbers that are
    integers (parsed fields, milliseconds since the epoch) are [Z]; the
    numbers of the coordinate buffer are the rationals [Q] that the doubles
    stand for, every division and addition of the reader being rounded to a
    double by [double]; the [properties] object is a
    [gmap string string]. *)

From Stdlib Require Import ZArith QArith Qround Qpower Ascii String List.
From Stdlib Require Import Lia Lqa Sorted SpecFloat.
From stdpp Require Import base option list strings gmap.

Close Scope Q_scope.
Local Open Scope string_scope.
Local Open Scope list_scope.
Local Open Scope Z_scope.

(** ** Character classes used by the regular expressions *)

Definition code (c : ascii) : Z := Z.of_nat (nat_of_ascii c).

(** [\d] *)
Definition is_digit (c : ascii) : bool := (48 <=? code c) && (code c <=? 57).

(** [[A-Z]] *)
Definition is_upper (c : ascii) : bool := (65 <=? code c) && (code c <=? 90).

(** A character that [.] refuses: a line terminator. *)
Definition is_line_terminator (c : ascii) : bool :=
  (code c =? 10) || (code c =? 13).

(** White space removed by [String.prototype.trim], among 8-bit code units. *)
Definition is_white_space (c : ascii) : bool :=
  ((9 <=? code c) && (code c <=? 13)) || (code c =? 32) || (code c =? 160).

Definition is_char (a : ascii) (c : ascii) : bool := bool_decide (c = a).

Definition is_NS (c : ascii) : bool := is_char "N" c || is_char "S" c.
Definition is_EW (c : ascii) : bool := is_char "E" c || is_char "W" c.
Definition is_AV (c : ascii) : bool := is_char "A" c || is_char "V" c.

(** ** Regular-expression building blocks

    Each block consumes a prefix of the remaining input and hands back what
    it captured together with the rest, or fails. *)

(** [(\d{n})] *)
Fixpoint take_digits (n : nat) (s : string) : option (string * string) :=
  match n with
  | O => Some ("", s)
  | S n' =>
      match s with
      | String c s' =>
          if is_digit c
          then '(d, r) ← take_digits n' s'; Some (String c d, r)
          else None
      | EmptyString => None
      end
  end.

(** [([...])]: one character of a class *)
Definition take_class (p : ascii -> bool) (s : string) : option (ascii * string) :=
  match s with
  | String c s' => if p c then Some (c, s') else None
  | EmptyString => None
  end.

(** a literal prefix *)
Fixpoint take_literal (lit s : string) : option string :=
  match lit with
  | EmptyString => Some s
  | String a lit' =>
      match s with
      | String c s' => if is_char a c then take_literal lit' s' else None
      | EmptyString => None
      end
  end.

(** ** [B_RECORD_RE] *)

(** The capture groups [m[1]] .. [m[12]] of a match. *)
Record BMatch := {
  b1 : string; b2 : string; b3 : string;
  b4 : string; b5 : string; b6 : ascii;
  b7 : string; b8 : string; b9 : ascii;
  b10 : ascii;
  b11 : string; b12 : string
}.

(** [/^B(\d{2})(\d{2})(\d{2})(\d{2})(\d{5})([NS])(\d{3})(\d{5})([EW])([AV])(\d{5})(\d{5})/]:
    anchored at the start only. *)
Definition B_RECORD_RE (line : string) : option BMatch :=
  s ← take_literal "B" line;
  '(g1, s) ← take_digits 2 s;
  '(g2, s) ← take_digits 2 s;
  '(g3, s) ← take_digits 2 s;
  '(g4, s) ← take_digits 2 s;
  '(g5, s) ← take_digits 5 s;
  '(g6, s) ← take_class is_NS s;
  '(g7, s) ← take_digits 3 s;
  '(g8, s) ← take_digits 5 s;
  '(g9, s) ← take_class is_EW s;
  '(g10, s) ← take_class is_AV s;
  '(g11, s) ← take_digits 5 s;
  '(g12, _) ← take_digits 5 s;
  Some {| b1 := g1; b2 := g2; b3 := g3; b4 := g4; b5 := g5; b6 := g6;
          b7 := g7; b8 := g8; b9 := g9; b10 := g10; b11 := g11; b12 := g12 |}.

(** ** [HFDTE_RECORD_RE] *)

Record DMatch := { d1 : string; d2 : string; d3 : string }.

(** [/^HFDTE(\d{2})(\d{2})(\d{2})/] *)
Definition HFDTE_RECORD_RE (line : string) : option DMatch :=
  s ← take_literal "HFDTE" line;
  '(g1, s) ← take_digits 2 s;
  '(g2, s) ← take_digits 2 s;
  '(g3, _) ← take_digits 2 s;
  Some {| d1 := g1; d2 := g2; d3 := g3 |}.

(** ** [H_RECORD_RE] *)

Record HMatch := { h1 : string; h2 : string }.

(** The tail of [H_RECORD_RE]: a lazy run of [.], a colon, then a captured
    greedy run of [.].  The lazy run stops at the first colon it can reach
    without crossing a line terminator; the greedy run then goes on to the
    next line terminator or to the end. *)
Fixpoint dot_star (s : string) : string :=
  match s with
  | String c s' => if is_line_terminator c then "" else String c (dot_star s')
  | EmptyString => ""
  end.

Fixpoint lazy_until_colon (s : string) : option string :=
  match s with
  | String c s' =>
      if is_char ":" c then Some (dot_star s')
      else if is_line_terminator c then None
      else lazy_until_colon s'
  | EmptyString => None
  end.

(** [H_RECORD_RE]: at the start an [H], any one character, three captured
    upper-case letters, then the tail above. *)
Definition H_RECORD_RE (line : string) : option HMatch :=
  s ← take_literal "H" line;
  '(_, s) ← take_class (λ c, negb (is_line_terminator c)) s;
  '(k1, s) ← take_class is_upper s;
  '(k2, s) ← take_class is_upper s;
  '(k3, s) ← take_class is_upper s;
  v ← lazy_until_colon s;
  Some {| h1 := String k1 (String k2 (String k3 "")); h2 := v |}.

(** ** [NEWLINE_RE] and [text.split(NEWLINE_RE)] *)

Definition is_CR (c : ascii) : bool := code c =? 13.
Definition is_LF (c : ascii) : bool := code c =? 10.

(** [/\r\n|\r|\n/]: the two-character alternative is tried first.  The
    result always has at least one element (the empty text gives [[""]]). *)
Fixpoint split_NEWLINE_RE (text : string) : list string :=
  match text with
  | EmptyString => [""]
  | String c rest =>
      if is_CR c then
        match rest with
        | String c' rest' =>
            if is_LF c' then "" :: split_NEWLINE_RE rest'
            else "" :: split_NEWLINE_RE rest
        | EmptyString => "" :: split_NEWLINE_RE rest
        end
      else if is_LF c then "" :: split_NEWLINE_RE rest
      else
        match split_NEWLINE_RE rest with
        | l :: ls => String c l :: ls
        | [] => [String c ""]
        end
  end.

(** ** [parseInt(s, 10)] and [trim]

    Every string the reader hands to [parseInt] is a capture of [\d{n}], so
    only the digit-run case of [parseInt] is reachable: the value of the
    leading run of decimal digits. *)
Fixpoint parseInt_acc (acc : Z) (s : string) : Z :=
  match s with
  | String c s' =>
      if is_digit c then parseInt_acc (10 * acc + (code c - 48)) s' else acc
  | EmptyString => acc
  end.

Definition parseInt (s : string) : Z := parseInt_acc 0 s.

Fixpoint trim_start (s : string) : string :=
  match s with
  | String c s' => if is_white_space c then trim_start s' else s
  | EmptyString => ""
  end.

Fixpoint trim_end (s : string) : string :=
  match s with
  | String c s' =>
      match trim_end s' with
      | EmptyString => if is_white_space c then "" else String c ""
      | t => String c t
      end
  | EmptyString => ""
  end.

Definition trim (s : string) : string := trim_end (trim_start s).

(** ** [Date.UTC]

    ECMAScript's date arithmetic: [MakeDay], [MakeTime], [MakeDate].  All
    quantities are integers far below 2^53, so [Z] is exact. *)
Module Date.

Definition msPerDay : Z := 86400000.
Definition msPerHour : Z := 3600000.
Definition msPerMinute : Z := 60000.
Definition msPerSecond : Z := 1000.

Definition DayFromYear (y : Z) : Z :=
  365 * (y - 1970) + (y - 1969) / 4 - (y - 1901) / 100 + (y - 1601) / 400.

Definition DaysInYear (y : Z) : Z :=
  if negb (y mod 4 =? 0) then 365
  else if negb (y mod 100 =? 0) then 366
  else if negb (y mod 400 =? 0) then 365
  else 366.

Definition InLeapYear (y : Z) : Z := if DaysInYear y =? 366 then 1 else 0.

(** Day number within the year of the first day of month [mn] (0-based). *)
Definition DayWithinYear (y mn : Z) : Z :=
  let leap := InLeapYear y in
  match mn with
  | 0 => 0
  | 1 => 31
  | 2 => 59 + leap
  | 3 => 90 + leap
  | 4 => 120 + leap
  | 5 => 151 + leap
  | 6 => 181 + leap
  | 7 => 212 + leap
  | 8 => 243 + leap
  | 9 => 273 + leap
  | 10 => 304 + leap
  | _ => 334 + leap
  end.

(** [MakeDay(year, month, date)]: months beyond 0..11 carry into the year,
    the date is added linearly. *)
Definition MakeDay (year month date : Z) : Z :=
  let ym := year + month / 12 in
  let mn := month mod 12 in
  DayFromYear ym + DayWithinYear ym mn + date - 1.

Definition MakeTime (hour min sec ms : Z) : Z :=
  hour * msPerHour + min * msPerMinute + sec * msPerSecond + ms.

Definition MakeDate (day time : Z) : Z := day * msPerDay + time.

(** [Date.UTC(year, month, day, hour, minute, second)].  A two-digit year
    0..99 means 1900 + year.  [TimeClip] is the identity below 8.64e15 ms
    (see [UTC_TimeClip] for the values the reader can produce). *)
Definition UTC (year month day hour minute second : Z) : Z :=
  let yr := if (0 <=? year) && (year <=? 99) then 1900 + year else year in
  MakeDate (MakeDay yr month day) (MakeTime hour minute second 0).

End Date.

(** ** Double-precision arithmetic

    A JavaScript number is an IEEE 754 double; a finite one is the rational
    it stands for.  The sum and the quotient of two doubles are the exact
    sum and quotient rounded to the nearest double, ties to even: a
    positive [x] with [2^e <= x < 2^(e+1)] is rounded to a multiple of
    [2^(e-52)].  (All numbers the reader rounds are 0 or lie between
    [2^-16] and [2^10], far from the overflow and subnormal ranges, which
    are left out.) *)

(** [floor (log2 x)] for a positive rational. *)
Definition exponent (x : Q) : Z :=
  let k := Z.log2 (Qnum x) - Z.log2 (Zpos (Qden x)) in
  if Qle_bool (2 ^ k) x then k else k - 1.

(** The nearest integer, the even one of two equally near. *)
Definition roundTiesToEven (q : Q) : Z :=
  let f := Qfloor q in
  match (q - inject_Z f ?= 1 # 2)%Q with
  | Lt => f
  | Gt => f + 1
  | Eq => if Z.even f then f else f + 1
  end.

(** The nearest double with 53 significant bits, for a positive rational. *)
Definition round_positive (x : Q) : Q :=
  let e := exponent x in
  (inject_Z (roundTiesToEven (x * 2 ^ (52 - e))) * 2 ^ (e - 52))%Q.

(** The nearest double. *)
Definition double (x : Q) : Q :=
  match (x ?= 0)%Q with
  | Eq => 0%Q
  | Gt => round_positive x
  | Lt => (- round_positive (- x))%Q
  end.

(** The same sum and quotient in the Standard Library's specification of
    IEEE 754 ([SpecFloat], 53 bits of precision, exponents up to 1024), to
    compare [double] with. *)
Definition SF_of_Z (z : Z) : spec_float := binary_normalize 53 1024 z 0 false.

Definition SF_to_Q (f : spec_float) : Q :=
  match f with
  | S754_finite s m e =>
      ((if s then - 1 else 1) * inject_Z (Zpos m) * 2 ^ e)%Q
  | _ => 0%Q
  end.

Definition SF_degrees (degrees minutes : Z) : Q :=
  SF_to_Q
    (SFadd 53 1024 (SF_of_Z degrees)
       (SFdiv 53 1024 (SF_of_Z minutes) (SF_of_Z 60000))).

(** ** Collaborators of the reader *)

(** [IGCZ]: the altitude modes are plain strings. *)
Module IGCZ.
Definition BAROMETRIC : string := "barometric".
Definition GPS : string := "gps".
Definition NONE : string := "none".
End IGCZ.

(** Modelled from the spec: [ol/geom/GeometryLayout] is not among the
    sources; the reader uses its two layouts with a time ordinate, of 3 and
    of 4 numeric components per point. *)
Inductive GeometryLayout := XYM | XYZM.

Definition stride (layout : GeometryLayout) : nat :=
  match layout with XYM => 3%nat | XYZM => 4%nat end.

(** Modelled from the spec: [ol/geom/LineString] is not among the sources; a
    line string built from a flat coordinate buffer and a layout keeps both,
    and its points are the consecutive [stride]-sized pieces of the buffer. *)
Record LineString := {
  ls_flatCoordinates : list Q;
  ls_layout : GeometryLayout
}.

(** Modelled from the spec: the points of a flat buffer, [n] numbers each
    (a shorter last piece if the length is no multiple of [n]). *)
Fixpoint inflateCoordinates (fuel : nat) (n : nat) (flat : list Q) : list (list Q) :=
  match fuel with
  | O => []
  | S fuel' =>
      match flat with
      | [] => []
      | _ => take n flat :: inflateCoordinates fuel' n (drop n flat)
      end
  end.

(** Modelled from the spec: the points of a line string. *)
Definition getCoordinates (g : LineString) : list (list Q) :=
  inflateCoordinates (length (ls_flatCoordinates g)) (stride (ls_layout g))
    (ls_flatCoordinates g).

(** The time ordinate of every point: its last component. *)
Definition time_components (g : LineString) : list Q :=
  omap last (getCoordinates g).

(** Modelled from the spec: [ol/Feature] is not among the sources; a feature
    carries one geometry and a property mapping. *)
Record Feature := {
  f_geometry : LineString;
  f_properties : gmap string string
}.

(** The constructor argument: [altitudeMode] may be absent. *)
Record Options := { altitudeMode : option string }.

(** The format object. *)
Record IGC := { altitudeMode_ : string }.

(** [options.altitudeMode ? options.altitudeMode : IGCZ.NONE], where
    [options] is [{}] when no argument is given; an absent mode and the
    empty string are both falsy. *)
Definition constructor (opt_options : option Options) : IGC :=
  let options := default {| altitudeMode := None |} opt_options in
  {| altitudeMode_ :=
       match altitudeMode options with
       | Some mode => if bool_decide (mode = "") then IGCZ.NONE else mode
       | None => IGCZ.NONE
       end |}.

(** ** The reader's loop *)

(** The local variables of [readFeatureFromText] that the loop updates. *)
Record Locals := {
  properties : gmap string string;
  flatCoordinates : list Q;
  year : Z;
  month : Z;
  day : Z;
  lastDateTime : Z
}.

(** Their values before the loop. *)
Definition initial : Locals :=
  {| properties := ∅; flatCoordinates := []; year := 2000; month := 0;
     day := 1; lastDateTime := -1 |}.

(** [line.charAt(0) == c] *)
Definition charAt0_is (c : ascii) (line : string) : bool :=
  match line with
  | String c0 _ => is_char c c0
  | EmptyString => false
  end.

(** [degrees + minutes / 60000] in doubles: the quotient is rounded, then
    the sum. *)
Definition degrees_minutes (degrees minutes : Z) : Q :=
  double (inject_Z degrees + double (inject_Z minutes / 60000))%Q.

(** [parseInt(m[4]) + parseInt(m[5]) / 60000], negated for [S] *)
Definition latitude (m : BMatch) : Q :=
  let y := degrees_minutes (parseInt (b4 m)) (parseInt (b5 m)) in
  if is_char "S" (b6 m) then (- y)%Q else y.

(** [parseInt(m[7]) + parseInt(m[8]) / 60000], negated for [W] *)
Definition longitude (m : BMatch) : Q :=
  let x := degrees_minutes (parseInt (b7 m)) (parseInt (b8 m)) in
  if is_char "W" (b9 m) then (- x)%Q else x.

(** The altitude pushed when the mode is not [NONE]. *)
Definition altitude (altitudeMode : string) (m : BMatch) : Z :=
  if bool_decide (altitudeMode = IGCZ.GPS) then parseInt (b11 m)
  else if bool_decide (altitudeMode = IGCZ.BAROMETRIC) then parseInt (b12 m)
  else 0.

(** The branch taken for a line that [B_RECORD_RE] matches. *)
Definition push_fix (altitudeMode : string) (st : Locals) (m : BMatch) : Locals :=
  let hour := parseInt (b1 m) in
  let minute := parseInt (b2 m) in
  let second := parseInt (b3 m) in
  let y := latitude m in
  let x := longitude m in
  let fc := flatCoordinates st ++ [x; y] in
  let fc :=
    if negb (bool_decide (altitudeMode = IGCZ.NONE))
    then fc ++ [inject_Z (altitude altitudeMode m)]
    else fc in
  let dateTime := Date.UTC (year st) (month st) (day st) hour minute second in
  let dateTime :=
    if dateTime <? lastDateTime st
    then Date.UTC (year st) (month st) (day st + 1) hour minute second
    else dateTime in
  {| properties := properties st;
     flatCoordinates := fc ++ [(inject_Z dateTime / 1000)%Q];
     year := year st; month := month st; day := day st;
     lastDateTime := dateTime |}.

(** The branch taken for a line that [HFDTE_RECORD_RE] matches. *)
Definition set_date (st : Locals) (m : DMatch) : Locals :=
  {| properties := properties st;
     flatCoordinates := flatCoordinates st;
     year := 2000 + parseInt (d3 m);
     month := parseInt (d2 m) - 1;
     day := parseInt (d1 m);
     lastDateTime := lastDateTime st |}.

(** The branch taken for a line that only [H_RECORD_RE] matches. *)
Definition set_property (st : Locals) (m : HMatch) : Locals :=
  {| properties := <[h1 m := trim (h2 m)]> (properties st);
     flatCoordinates := flatCoordinates st;
     year := year st; month := month st; day := day st;
     lastDateTime := lastDateTime st |}.

(** One iteration of the [for] loop. *)
Definition loop_body (altitudeMode : string) (st : Locals) (line : string) : Locals :=
  if charAt0_is "B" line then
    match B_RECORD_RE line with
    | Some m => push_fix altitudeMode st m
    | None => st
    end
  else if charAt0_is "H" line then
    match HFDTE_RECORD_RE line with
    | Some m => set_date st m
    | None =>
        match H_RECORD_RE line with
        | Some m => set_property st m
        | None => st
        end
    end
  else st.

(** The loop over the lines, first to last. *)
Definition loop (altitudeMode : string) (st : Locals) (lines : list string) : Locals :=
  fold_left (loop_body altitudeMode) lines st.

(** The state after the loop of [readFeatureFromText]. *)
Definition decode (altitudeMode : string) (text : string) : Locals :=
  loop altitudeMode initial (split_NEWLINE_RE text).

(** The line string handed to [transformWithOptions]. *)
Definition track (altitudeMode : string) (text : string) : LineString :=
  {| ls_flatCoordinates := flatCoordinates (decode altitudeMode text);
     ls_layout := if bool_decide (altitudeMode = IGCZ.NONE) then XYM else XYZM |}.

(** ** The methods of the class *)

(** How a call ends: it returns a value or it throws. *)
Inductive Completion (A : Type) :=
  | Normal (a : A)
  | Throw (e : string).
Arguments Normal {A} a.
Arguments Throw {A} e.

(** The value of a function body that falls off its end. *)
Inductive Undefined := undefined.

Section Methods.

(** [ol/format/Feature]'s read options and [transformWithOptions] are not
    among the sources: they stay parameters of the reader. *)
Variable ReadOptions : Type.
Variable transformWithOptions : LineString -> bool -> option ReadOptions -> LineString.

(** [null] is [None]. *)
Definition readFeatureFromText (this : IGC) (text : string)
    (opt_options : option ReadOptions) : option Feature :=
  let altitudeMode := altitudeMode_ this in
  let st := decode altitudeMode text in
  if bool_decide (length (flatCoordinates st) = 0%nat) then None
  else
    let lineString := track altitudeMode text in
    Some {| f_geometry := transformWithOptions lineString false opt_options;
            f_properties := properties st |}.

(** One feature in an array, or the empty array. *)
Definition readFeaturesFromText (this : IGC) (text : string)
    (opt_options : option ReadOptions) : list Feature :=
  match readFeatureFromText this text opt_options with
  | Some feature => [feature]
  | None => []
  end.

(** The four methods with an empty body. *)
Definition writeFeatureText (this : IGC) (feature : Feature)
    (opt_options : option ReadOptions) : Completion Undefined :=
  Normal undefined.

Definition writeFeaturesText (this : IGC) (features : list Feature)
    (opt_options : option ReadOptions) : Completion Undefined :=
  Normal undefined.

Definition writeGeometryText (this : IGC) (geometry : LineString)
    (opt_options : option ReadOptions) : Completion Undefined :=
  Normal undefined.

Definition readGeometryFromText (this : IGC) (text : string)
    (opt_options : option ReadOptions) : Completion Undefined :=
  Normal undefined.

End Methods.

Arguments readFeatureFromText {ReadOptions}.
Arguments readFeaturesFromText {ReadOptions}.
Arguments writeFeatureText {ReadOptions}.
Arguments writeFeaturesText {ReadOptions}.
Arguments writeGeometryText {ReadOptions}.
Arguments readGeometryFromText {ReadOptions}.

(** ** Specification-level notions used in the statements *)

(** The fixed-width layout of a fix line, one character class per column:
    [B], 6 digits of time, 7 digits of latitude, [N]/[S], 8 digits of
    longitude, [E]/[W], [A]/[V], two altitudes of 5 digits: 35 columns. *)
Definition fix_layout : list (ascii -> bool) :=
  [is_char "B"] ++ replicate 13 is_digit ++ [is_NS] ++ replicate 8 is_digit
    ++ [is_EW; is_AV] ++ replicate 10 is_digit.

(** The whole line has the layout: same length, every column in its class. *)
Fixpoint conforms (layout : list (ascii -> bool)) (s : string) : bool :=
  match layout, s with
  | [], EmptyString => true
  | p :: layout', String c s' => p c && conforms layout' s'
  | _, _ => false
  end.

(** The line starts with the layout; what follows is free. *)
Fixpoint conforms_prefix (layout : list (ascii -> bool)) (s : string) : bool :=
  match layout with
  | [] => true
  | p :: layout' =>
      match s with
      | String c s' => p c && conforms_prefix layout' s'
      | EmptyString => false
      end
  end.

(** Every character is a decimal digit. *)
Fixpoint all_digits (s : string) : bool :=
  match s with
  | String c s' => is_digit c && all_digits s'
  | EmptyString => true
  end.

(** The date context of the specification. *)
Record DateContext := { dc_year : Z; dc_month : Z; dc_day : Z }.

(** The date before any date header: 1 January 2000. *)
Definition initial_date : DateContext :=
  {| dc_year := 2000; dc_month := 0; dc_day := 1 |}.

(** The date context held by the locals. *)
Definition date_of (st : Locals) : DateContext :=
  {| dc_year := year st; dc_month := month st; dc_day := day st |}.

(** The candidate timestamp of a fix: the calendar timestamp of the date
    context and the fix's hour, minute and second, in milliseconds. *)
Definition candidate (dc : DateContext) (m : BMatch) : Z :=
  Date.UTC (dc_year dc) (dc_month dc) (dc_day dc)
    (parseInt (b1 m)) (parseInt (b2 m)) (parseInt (b3 m)).

(** The date context a date header sets. *)
Definition header_date (m : DMatch) : DateContext :=
  {| dc_year := 2000 + parseInt (d3 m); dc_month := parseInt (d2 m) - 1;
     dc_day := parseInt (d1 m) |}.

(** The candidates of the fixes of a document, in document order, each under
    the date context in force at its line. *)
Fixpoint candidates (dc : DateContext) (lines : list string) : list Z :=
  match lines with
  | [] => []
  | line :: lines' =>
      match B_RECORD_RE line with
      | Some m => candidate dc m :: candidates dc lines'
      | None =>
          match HFDTE_RECORD_RE line with
          | Some d => candidates (header_date d) lines'
          | None => candidates dc lines'
          end
      end
  end.

(** The timestamp the sequencer gives a candidate: a candidate below the
    previous timestamp is moved one day forward. *)
Definition stamp (last c : Z) : Z := if c <? last then c + Date.msPerDay else c.

(** The sequencer of the specification, over the candidates of a document. *)
Fixpoint sequence (last : Z) (cands : list Z) : list Z :=
  match cands with
  | [] => []
  | c :: cands' =>
      let t := stamp last c in
      t :: sequence t cands'
  end.

(** The fixes of a document: the matches of its lines, in order. *)
Definition fixes (text : string) : list BMatch :=
  omap B_RECORD_RE (split_NEWLINE_RE text).

(** The numbers pushed for one fix. *)
Definition point (altitudeMode : string) (m : BMatch) (dateTime : Z) : list Q :=
  [longitude m; latitude m]
    ++ (if negb (bool_decide (altitudeMode = IGCZ.NONE))
        then [inject_Z (altitude altitudeMode m)] else [])
    ++ [(inject_Z dateTime / 1000)%Q].

(** What a match says about its groups. *)
Record groups_ok (m : BMatch) : Prop := {
  ok1 : String.length (b1 m) = 2%nat /\ all_digits (b1 m) = true;
  ok2 : String.length (b2 m) = 2%nat /\ all_digits (b2 m) = true;
  ok3 : String.length (b3 m) = 2%nat /\ all_digits (b3 m) = true;
  ok4 : String.length (b4 m) = 2%nat /\ all_digits (b4 m) = true;
  ok5 : String.length (b5 m) = 5%nat /\ all_digits (b5 m) = true;
  ok6 : is_NS (b6 m) = true;
  ok7 : String.length (b7 m) = 3%nat /\ all_digits (b7 m) = true;
  ok8 : String.length (b8 m) = 5%nat /\ all_digits (b8 m) = true;
  ok9 : is_EW (b9 m) = true;
  ok10 : is_AV (b10 m) = true;
  ok11 : String.length (b11 m) = 5%nat /\ all_digits (b11 m) = true;
  ok12 : String.length (b12 m) = 5%nat /\ all_digits (b12 m) = true
}.

(** The text of a matching line, from its groups and what follows them. *)
Definition fix_text (m : BMatch) (rest : string) : string :=
  String "B" (b1 m +:+ b2 m +:+ b3 m +:+ b4 m +:+ b5 m +:+ String (b6 m)
    (b7 m +:+ b8 m +:+ String (b9 m) (String (b10 m)
    (b11 m +:+ b12 m +:+ rest)))).

(** The same match with another validity letter. *)
Definition with_validity (v : ascii) (m : BMatch) : BMatch :=
  {| b1 := b1 m; b2 := b2 m; b3 := b3 m; b4 := b4 m; b5 := b5 m; b6 := b6 m;
     b7 := b7 m; b8 := b8 m; b9 := b9 m; b10 := v; b11 := b11 m; b12 := b12 m |}.

(** Two lines that differ at most in the validity letter of a fix line. *)
Definition validity_variant (l1 l2 : string) : Prop :=
  exists pre v1 v2 post,
    String.length pre = 24%nat /\ is_AV v1 = true /\ is_AV v2 = true /\
    l1 = pre +:+ String v1 post /\ l2 = pre +:+ String v2 post /\
    is_Some (B_RECORD_RE l1).

(** The fixes of the lines with the timestamps the sequencer gives them,
    from a date context and a previous timestamp. *)
Fixpoint stamped (dc : DateContext) (last : Z) (lines : list string)
    : list (BMatch * Z) :=
  match lines with
  | [] => []
  | line :: lines' =>
      match B_RECORD_RE line with
      | Some m =>
          let t := stamp last (candidate dc m) in
          (m, t) :: stamped dc t lines'
      | None =>
          match HFDTE_RECORD_RE line with
          | Some d => stamped (header_date d) last lines'
          | None => stamped dc last lines'
          end
      end
  end.

(** Seconds from milliseconds, as the reader divides: the quotient of a
    multiple of 1000, a whole number that is a double as it stands
    ([seconds_double]). *)
Definition seconds (dateTime : Z) : Q := (inject_Z dateTime / 1000)%Q.

(** The date contexts the reader can be in. *)
Definition date_ok (dc : DateContext) : Prop :=
  2000 <= dc_year dc <= 2099 /\ -1 <= dc_month dc <= 98 /\ 0 <= dc_day dc <= 99.

(** Hour, minute and second of a fix. *)
Definition time_of_day (m : BMatch) : Z * Z * Z :=
  (parseInt (b1 m), parseInt (b2 m), parseInt (b3 m)).

(** No fix and no date header on these lines. *)
Definition no_fix_no_date (lines : list string) : Prop :=
  Forall (λ line, B_RECORD_RE line = None /\ HFDTE_RECORD_RE line = None) lines.

(** The largest values the two-digit and three-digit degree fields and the
    five-digit minute field can give: the doubles [99 + 99999 / 60000] and
    [999 + 99999 / 60000]. *)
Definition max_latitude : Q := degrees_minutes 99 99999.
Definition max_longitude : Q := degrees_minutes 999 99999.

(** The format built with a configured altitude mode. *)
Definition with_mode (mode : string) : IGC :=
  constructor (Some {| altitudeMode := Some mode |}).

(** The first 24 columns of a matching line: up to the validity letter. *)
Definition fix_prefix (m : BMatch) : string :=
  String "B" (b1 m +:+ b2 m +:+ b3 m +:+ b4 m +:+ b5 m +:+ String (b6 m)
    (b7 m +:+ b8 m +:+ String (b9 m) "")).

(** ** The documents and values used as examples *)

(** Four fixes at 23:00, 01:00, 23:00 and 01:00 with no date header: a
    flight over two midnights. *)
Definition two_midnights : string :=
  "B2300005000000N00100000EA0012300089" +:+ String "010"
  ("B0100005000000N00100000EA0012300089" +:+ String "010"
  ("B2300005000000N00100000EA0012300089" +:+ String "010"
   "B0100005000000N00100000EA0012300089")).

(** Two days, each with its date header: 23:00 and 01:00 under 1 January
    2020, then 02:00, 23:00 and 01:00 under 2 January 2020. *)
Definition two_dates : string :=
  "HFDTE010120" +:+ String "010"
  ("B2300005000000N00100000EA0012300089" +:+ String "010"
  ("B0100005000000N00100000EA0012300089" +:+ String "010"
  ("HFDTE020120" +:+ String "010"
  ("B0200005000000N00100000EA0012300089" +:+ String "010"
  ("B2300005000000N00100000EA0012300089" +:+ String "010"
   "B0100005000000N00100000EA0012300089"))))).

(** Fixes at 23:59:58, 00:00:02, 23:59:58 and 00:00:02, no header: two
    midnights, each crossed between two fixes 4 seconds apart. *)
Definition two_wraps : string :=
  "B2359585000000N00100000EA0012300089" +:+ String "010"
  ("B0000025000000N00100000EA0012300089" +:+ String "010"
  ("B2359585000000N00100000EA0012300089" +:+ String "010"
   "B0000025000000N00100000EA0012300089")).

(** A fix at 99 degrees north, 999 degrees east. *)
Definition far_north : string := "B1011109900000N99900000EA0012300089".

(** A feature to write. *)
Definition sample_feature : Feature :=
  {| f_geometry := {| ls_flatCoordinates := []; ls_layout := XYM |};
     f_properties := ∅ |}.

(** A fix line followed by five more characters: 40 columns. *)
Definition long_fix : string := "B1011105000000N00100000EA0012300089EXTRA".

(** A document with one generic header and no fix. *)
Definition header_only : string := "HFPLTPILOTINCHARGE:John Doe".

(** A date header and one valid fix. *)
Definition valid_fix : string :=
  "HFDTE230820" +:+ String "010" "B1011105000000N00100000EA0012300089".

(** The same with the fix marked void. *)
Definition void_fix : string :=
  "HFDTE230820" +:+ String "010" "B1011105000000N00100000EV0012300089".

(** ** Notions used in the further properties *)

(** The three line separators [NEWLINE_RE] knows. *)
Definition LF : string := String "010" "".
Definition CR : string := String "013" "".
Definition CRLF : string := String "013" (String "010" "").

(** The lines of a document put together with one separator. *)
Fixpoint join (sep : string) (lines : list string) : string :=
  match lines with
  | [] => ""
  | [line] => line
  | line :: lines' => line +:+ sep +:+ join sep lines'
  end.

(** No carriage return and no line feed in the string. *)
Fixpoint no_terminator (s : string) : bool :=
  match s with
  | String c s' => negb (is_line_terminator c) && no_terminator s'
  | EmptyString => true
  end.

(** No colon in the string. *)
Fixpoint no_colon (s : string) : bool :=
  match s with
  | String c s' => negb (is_char ":" c) && no_colon s'
  | EmptyString => true
  end.

(** Only upper-case letters. *)
Fixpoint all_upper (s : string) : bool :=
  match s with
  | String c s' => is_upper c && all_upper s'
  | EmptyString => true
  end.

(** Only white space. *)
Fixpoint all_white_space (s : string) : bool :=
  match s with
  | String c s' => is_white_space c && all_white_space s'
  | EmptyString => true
  end.

(** The string starts, or ends, with a white-space character. *)
Definition starts_with_white_space (s : string) : bool :=
  match s with
  | String c _ => is_white_space c
  | EmptyString => false
  end.

Fixpoint ends_with_white_space (s : string) : bool :=
  match s with
  | String c EmptyString => is_white_space c
  | String _ s' => ends_with_white_space s'
  | EmptyString => false
  end.

(** The string starts with a line feed. *)
Definition starts_with_LF (s : string) : bool :=
  match s with
  | String c _ => is_LF c
  | EmptyString => false
  end.

(** The generic header the reader takes from a line, if any: the match of
    [H_RECORD_RE] on a line that [HFDTE_RECORD_RE] does not match. *)
Definition header_of (line : string) : option HMatch :=
  match HFDTE_RECORD_RE line with
  | Some _ => None
  | None => H_RECORD_RE line
  end.

(** The line is a fix or a date header. *)
Definition fix_or_date (line : string) : bool :=
  match B_RECORD_RE line with
  | Some _ => true
  | None =>
      match HFDTE_RECORD_RE line with
      | Some _ => true
      | None => false
      end
  end.

(** A point without its third component. *)
Definition drop_z (p : list Q) : list Q :=
  match p with
  | x :: y :: _ :: rest => x :: y :: rest
  | _ => p
  end.

(** Two pilot headers with a fix and a club header around them. *)
Definition two_pilots : string :=
  "HFPLTPILOT: first" +:+ String "010"
  ("B1011105000000N00100000EA0012300089" +:+ String "010"
  ("HFPLTPILOT:second " +:+ String "010" "HFCLBCLUB:third")).

(** [valid_fix] with a pilot header, a garbage line, a short fix line and a
    blank line added. *)
Definition padded_fix : string :=
  "HFPLTPILOT:John" +:+ String "010"
  ("HFDTE230820" +:+ String "010"
  ("XGARBAGE" +:+ String "010"
  ("B10111050" +:+ String "010"
  ("B1011105000000N00100000EA0012300089" +:+ String "010" "")))).

(** ** Lemmas on the building blocks *)

Lemma take_digits_inv n s d r :
  take_digits n s = Some (d, r) ->
  s = d +:+ r /\ String.length d = n /\ all_digits d = true.
Proof.
  revert s d r. induction n as [|n IH]; intros s d r H; simpl in H.
  - by simplify_eq.
  - destruct s as [|c s]; [done|].
    destruct (is_digit c) eqn:Hc; [|done].
    destruct (take_digits n s) as [[d' r']|] eqn:E; simplify_eq/=.
    destruct (IH _ _ _ E) as (-> & <- & Hd).
    by rewrite Hc, Hd.
Qed.

Lemma take_digits_app n d r :
  String.length d = n -> all_digits d = true ->
  take_digits n (d +:+ r) = Some (d, r).
Proof.
  intros <-. induction d as [|c d IH]; simpl; intros H; [done|].
  apply andb_true_iff in H as [Hc Hd].
  by rewrite Hc, (IH Hd).
Qed.

Lemma take_class_inv p s c r :
  take_class p s = Some (c, r) -> s = String c r /\ p c = true.
Proof.
  destruct s as [|c0 s]; simpl; [done|].
  destruct (p c0) eqn:Hc; intros; by simplify_eq.
Qed.

Lemma take_class_cons p c r : p c = true -> take_class p (String c r) = Some (c, r).
Proof. simpl. by intros ->. Qed.

Lemma is_char_true a c : is_char a c = true <-> c = a.
Proof. unfold is_char. by rewrite bool_decide_eq_true. Qed.

Lemma take_literal_B_inv s r : take_literal "B" s = Some r -> s = String "B" r.
Proof.
  destruct s as [|c s]; simpl; [done|].
  destruct (is_char "B" c) eqn:Hc; [|done].
  apply is_char_true in Hc as ->. by intros [= ->].
Qed.

Lemma string_app_cons c (a b : string) : String c a +:+ b = String c (a +:+ b).
Proof. reflexivity. Qed.

Lemma string_app_assoc (a b c : string) : (a +:+ b) +:+ c = a +:+ (b +:+ c).
Proof.
  induction a as [|x a IH]; [done|].
  by rewrite !string_app_cons, IH.
Qed.

Lemma string_app_length (a b : string) :
  String.length (a +:+ b) = (String.length a + String.length b)%nat.
Proof.
  induction a as [|x a IH]; [done|].
  rewrite string_app_cons. simpl. by rewrite IH.
Qed.

Lemma string_app_inj (a a' b b' : string) :
  String.length a = String.length a' -> a +:+ b = a' +:+ b' -> a = a' /\ b = b'.
Proof.
  revert a'. induction a as [|c a IH]; intros [|c' a']; try done.
  rewrite !string_app_cons. intros [= Hl] [= -> H].
  destruct (IH _ Hl H) as [-> ->]. done.
Qed.

(** ** [B_RECORD_RE]: a match and the text it came from *)

Lemma B_RECORD_RE_inv line m :
  B_RECORD_RE line = Some m -> groups_ok m /\ exists rest, line = fix_text m rest.
Proof.
  unfold B_RECORD_RE. intros H.
  destruct (take_literal "B" line) as [s0|] eqn:E0; [|done].
  cbn [mbind option_bind] in H.
  apply take_literal_B_inv in E0 as ->.
  repeat match type of H with
  | context [take_digits ?n ?s] =>
      let E := fresh "E" in
      destruct (take_digits n s) as [[? ?]|] eqn:E; [|done];
      cbn [mbind option_bind] in H;
      apply take_digits_inv in E as (-> & ? & ?)
  | context [take_class ?p ?s] =>
      let E := fresh "E" in
      destruct (take_class p s) as [[? ?]|] eqn:E; [|done];
      cbn [mbind option_bind] in H;
      apply take_class_inv in E as (-> & ?)
  end.
  simplify_eq. split; [by constructor|].
  eexists. unfold fix_text. cbn [b1 b2 b3 b4 b5 b6 b7 b8 b9 b10 b11 b12]. reflexivity.
Qed.

Lemma B_RECORD_RE_text m rest :
  groups_ok m -> B_RECORD_RE (fix_text m rest) = Some m.
Proof.
  intros [[L1 D1] [L2 D2] [L3 D3] [L4 D4] [L5 D5] C6 [L7 D7] [L8 D8] C9 C10
          [L11 D11] [L12 D12]].
  unfold B_RECORD_RE, fix_text.
  change (take_literal "B" (String "B" ?s)) with (Some s). cbn [mbind option_bind].
  rewrite (take_digits_app _ _ _ L1 D1). cbn [mbind option_bind].
  rewrite (take_digits_app _ _ _ L2 D2). cbn [mbind option_bind].
  rewrite (take_digits_app _ _ _ L3 D3). cbn [mbind option_bind].
  rewrite (take_digits_app _ _ _ L4 D4). cbn [mbind option_bind].
  rewrite (take_digits_app _ _ _ L5 D5). cbn [mbind option_bind].
  rewrite (take_class_cons _ _ _ C6). cbn [mbind option_bind].
  rewrite (take_digits_app _ _ _ L7 D7). cbn [mbind option_bind].
  rewrite (take_digits_app _ _ _ L8 D8). cbn [mbind option_bind].
  rewrite (take_class_cons _ _ _ C9). cbn [mbind option_bind].
  rewrite (take_class_cons _ _ _ C10). cbn [mbind option_bind].
  rewrite (take_digits_app _ _ _ L11 D11). cbn [mbind option_bind].
  rewrite (take_digits_app _ _ _ L12 D12). cbn [mbind option_bind].
  by destruct m.
Qed.

Lemma B_RECORD_RE_charAt0 line m :
  B_RECORD_RE line = Some m -> charAt0_is "B" line = true.
Proof.
  intros H. apply B_RECORD_RE_inv in H as (_ & rest & ->). done.
Qed.

Lemma HFDTE_RECORD_RE_charAt0 line m :
  HFDTE_RECORD_RE line = Some m ->
  charAt0_is "B" line = false /\ charAt0_is "H" line = true.
Proof.
  unfold HFDTE_RECORD_RE. intros H.
  destruct line as [|c line]; [done|].
  unfold take_literal in H. destruct (is_char "H" c) eqn:Hc; [|done].
  apply is_char_true in Hc as ->. done.
Qed.

Lemma B_RECORD_RE_not_HFDTE line m :
  B_RECORD_RE line = Some m -> HFDTE_RECORD_RE line = None.
Proof.
  intros H. apply B_RECORD_RE_charAt0 in H.
  destruct (HFDTE_RECORD_RE line) as [d|] eqn:E; [|done].
  apply HFDTE_RECORD_RE_charAt0 in E as [E _]. congruence.
Qed.


(** ** [parseInt] on digit strings *)

Lemma is_digit_code c : is_digit c = true -> 0 <= code c - 48 <= 9.
Proof. unfold is_digit. intros H. apply andb_true_iff in H as [H1 H2]. lia. Qed.

Lemma parseInt_acc_bounds s acc :
  0 <= acc ->
  0 <= parseInt_acc acc s < (acc + 1) * 10 ^ Z.of_nat (String.length s).
Proof.
  revert acc. induction s as [|c s IH]; intros acc Hacc; simpl String.length.
  - simpl. lia.
  - rewrite Nat2Z.inj_succ, Z.pow_succ_r by lia.
    assert (0 < 10 ^ Z.of_nat (String.length s)) by (apply Z.pow_pos_nonneg; lia).
    simpl. destruct (is_digit c) eqn:Hc.
    + apply is_digit_code in Hc.
      specialize (IH (10 * acc + (code c - 48)) ltac:(lia)). nia.
    + nia.
Qed.

Lemma parseInt_bounds s :
  0 <= parseInt s < 10 ^ Z.of_nat (String.length s).
Proof.
  unfold parseInt. pose proof (parseInt_acc_bounds s 0 ltac:(lia)). lia.
Qed.

Lemma parseInt_nonneg s : 0 <= parseInt s.
Proof. apply parseInt_bounds. Qed.

Lemma parseInt_lt s n k :
  String.length s = n -> 10 ^ Z.of_nat n = k -> 0 <= parseInt s < k.
Proof. intros <- <-. apply parseInt_bounds. Qed.

(** ** The layout and [B_RECORD_RE] agree on the first 35 columns *)

Lemma conforms_prefix_digits n layout s :
  conforms_prefix (replicate n is_digit ++ layout) s
  = match take_digits n s with
    | Some (_, r) => conforms_prefix layout r
    | None => false
    end.
Proof.
  revert s. induction n as [|n IH]; intros s; [done|].
  simpl. destruct s as [|c s]; [done|].
  destruct (is_digit c); [|done]. simpl. rewrite IH.
  by destruct (take_digits n s) as [[d r]|].
Qed.

Lemma conforms_prefix_class p layout s :
  conforms_prefix (p :: layout) s
  = match take_class p s with
    | Some (_, r) => conforms_prefix layout r
    | None => false
    end.
Proof. destruct s as [|c s]; [done|]. simpl. by destruct (p c). Qed.

Lemma B_RECORD_RE_layout line :
  is_Some (B_RECORD_RE line) <-> conforms_prefix fix_layout line = true.
Proof.
  change fix_layout with
    (is_char "B" :: (replicate 2 is_digit ++ (replicate 2 is_digit
      ++ (replicate 2 is_digit ++ (replicate 2 is_digit ++ (replicate 5 is_digit
      ++ (is_NS :: (replicate 3 is_digit ++ (replicate 5 is_digit
      ++ (is_EW :: is_AV :: (replicate 5 is_digit ++ (replicate 5 is_digit ++ [])))))))))))).
  unfold B_RECORD_RE.
  destruct line as [|c0 line]; [by split; [intros [? ?]|]|].
  cbn [conforms_prefix take_literal].
  destruct (is_char "B" c0); [|by split; [intros [? ?]|]].
  cbn [mbind option_bind andb].
  repeat first
    [ rewrite conforms_prefix_digits
    | rewrite conforms_prefix_class
    | match goal with
      | |- context [take_digits ?n ?s] =>
          destruct (take_digits n s) as [[? ?]|];
          cbn [mbind option_bind]; [|by split; [intros [? ?]|]]
      | |- context [take_class ?p ?s] =>
          destruct (take_class p s) as [[? ?]|];
          cbn [mbind option_bind]; [|by split; [intros [? ?]|]]
      end ].
  split; [done|]. by eexists.
Qed.

(** ** Calendar arithmetic *)

Lemma UTC_next_day y mo d h mi s :
  Date.UTC y mo (d + 1) h mi s = Date.UTC y mo d h mi s + Date.msPerDay.
Proof. unfold Date.UTC, Date.MakeDate, Date.MakeDay, Date.msPerDay. lia. Qed.

Lemma InLeapYear_range y : 0 <= Date.InLeapYear y <= 1.
Proof. unfold Date.InLeapYear. destruct (_ =? _); lia. Qed.

Lemma DayWithinYear_range y mn : 0 <= Date.DayWithinYear y mn <= 335.
Proof.
  pose proof (InLeapYear_range y). unfold Date.DayWithinYear.
  repeat match goal with
  | |- context [match ?p with _ => _ end] => destruct p
  end; lia.
Qed.

(** The values the reader can hand to [Date.UTC]: a year 2000..2099 from a
    date header, a month -1..98, a day 0..100 (one more than a two-digit
    day), and two-digit time fields. *)
Lemma UTC_range y mo d h mi s :
  2000 <= y <= 2099 -> -1 <= mo <= 98 -> 0 <= d <= 100 ->
  0 <= h <= 99 -> 0 <= mi <= 99 -> 0 <= s <= 99 ->
  0 <= Date.UTC y mo d h mi s < 5000000000000.
Proof.
  intros Hy Hmo Hd Hh Hmi Hs. unfold Date.UTC.
  replace ((0 <=? y) && (y <=? 99)) with false by (symmetry; apply andb_false_iff; lia).
  unfold Date.MakeDate, Date.MakeDay, Date.MakeTime, Date.DayFromYear,
    Date.msPerDay, Date.msPerHour, Date.msPerMinute, Date.msPerSecond.
  pose proof (DayWithinYear_range (y + mo / 12) (mo mod 12)) as Hw.
  set (w := Date.DayWithinYear _ _) in *. clearbody w.
  assert (-1 <= mo / 12 <= 8) as Hq by (Z.div_mod_to_equations; lia).
  set (ym := y + mo / 12) in *. assert (1999 <= ym <= 2107) as Hym by lia.
  clearbody ym. clear Hq Hy Hmo.
  Z.div_mod_to_equations. lia.
Qed.

(** [TimeClip] leaves these values alone: they are below 8.64e15. *)
Lemma UTC_TimeClip y mo d h mi s :
  2000 <= y <= 2099 -> -1 <= mo <= 98 -> 0 <= d <= 100 ->
  0 <= h <= 99 -> 0 <= mi <= 99 -> 0 <= s <= 99 ->
  Z.abs (Date.UTC y mo d h mi s) <= 8640000000000000.
Proof. intros. pose proof (UTC_range y mo d h mi s). lia. Qed.

(** ** One iteration *)

Lemma loop_body_fix mode st line m :
  B_RECORD_RE line = Some m -> loop_body mode st line = push_fix mode st m.
Proof.
  intros H. unfold loop_body. by rewrite (B_RECORD_RE_charAt0 _ _ H), H.
Qed.

Lemma loop_body_date mode st line d :
  HFDTE_RECORD_RE line = Some d -> loop_body mode st line = set_date st d.
Proof.
  intros H. unfold loop_body.
  destruct (HFDTE_RECORD_RE_charAt0 _ _ H) as [-> ->]. by rewrite H.
Qed.

(** A line that is neither a fix nor a date header changes the property
    mapping at most. *)
Lemma loop_body_other mode st line :
  B_RECORD_RE line = None -> HFDTE_RECORD_RE line = None ->
  flatCoordinates (loop_body mode st line) = flatCoordinates st /\
  lastDateTime (loop_body mode st line) = lastDateTime st /\
  date_of (loop_body mode st line) = date_of st.
Proof.
  intros HB HD. unfold loop_body. rewrite HB, HD.
  destruct (charAt0_is "B" line); [done|].
  destruct (charAt0_is "H" line); [|done].
  by destruct (H_RECORD_RE line).
Qed.

Lemma push_fix_lastDateTime mode st m :
  lastDateTime (push_fix mode st m)
  = stamp (lastDateTime st) (candidate (date_of st) m).
Proof.
  unfold push_fix, stamp, candidate. simpl.
  destruct (_ <? _); [apply UTC_next_day|done].
Qed.

Lemma push_fix_flatCoordinates mode st m :
  flatCoordinates (push_fix mode st m)
  = flatCoordinates st ++ point mode m (lastDateTime (push_fix mode st m)).
Proof.
  unfold push_fix, point. simpl.
  destruct (negb (bool_decide (mode = IGCZ.NONE))); by rewrite <- !app_assoc.
Qed.

Lemma point_length mode m t :
  length (point mode m t)
  = stride (if bool_decide (mode = IGCZ.NONE) then XYM else XYZM).
Proof. unfold point. by destruct (bool_decide (mode = IGCZ.NONE)). Qed.

(** ** The whole loop, as a list of stamped fixes *)

Lemma stamped_fixes dc last lines :
  (stamped dc last lines).*1 = omap B_RECORD_RE lines.
Proof.
  revert dc last. induction lines as [|line lines IH]; intros dc last; [done|].
  simpl. destruct (B_RECORD_RE line) as [m|]; simpl.
  - by rewrite IH.
  - destruct (HFDTE_RECORD_RE line); apply IH.
Qed.

Lemma stamped_sequence dc last lines :
  (stamped dc last lines).*2 = sequence last (candidates dc lines).
Proof.
  revert dc last. induction lines as [|line lines IH]; intros dc last; [done|].
  simpl. destruct (B_RECORD_RE line) as [m|]; simpl.
  - by rewrite IH.
  - destruct (HFDTE_RECORD_RE line); apply IH.
Qed.

Lemma loop_flatCoordinates mode lines st :
  flatCoordinates (loop mode st lines)
  = flatCoordinates st
    ++ concat ((λ mt, point mode mt.1 mt.2)
               <$> stamped (date_of st) (lastDateTime st) lines).
Proof.
  revert st. induction lines as [|line lines IH]; intros st.
  - simpl. by rewrite app_nil_r.
  - unfold loop in *. simpl fold_left. rewrite IH. simpl stamped.
    destruct (B_RECORD_RE line) as [m|] eqn:HB.
    + rewrite (loop_body_fix _ _ _ _ HB).
      rewrite push_fix_flatCoordinates, push_fix_lastDateTime.
      rewrite fmap_cons. simpl concat. by rewrite <- app_assoc.
    + destruct (HFDTE_RECORD_RE line) as [d|] eqn:HD.
      * by rewrite (loop_body_date _ _ _ _ HD).
      * by destruct (loop_body_other mode st line HB HD) as (-> & -> & ->).
Qed.

Lemma loop_properties_nofix mode lines st :
  omap B_RECORD_RE lines = [] ->
  flatCoordinates (loop mode st lines) = flatCoordinates st.
Proof.
  intros H. rewrite loop_flatCoordinates.
  pose proof (stamped_fixes (date_of st) (lastDateTime st) lines) as Hs.
  rewrite H in Hs. apply fmap_nil_inv in Hs. rewrite Hs. simpl.
  by rewrite app_nil_r.
Qed.

(** ** The points of a flat buffer *)

Lemma inflateCoordinates_concat n (ps : list (list Q)) fuel :
  (0 < n)%nat -> Forall (λ p, length p = n) ps -> (length ps <= fuel)%nat ->
  inflateCoordinates fuel n (concat ps) = ps.
Proof.
  intros Hn Hps. revert fuel. induction Hps as [|p ps Hp _ IH]; intros fuel Hf.
  - by destruct fuel.
  - destruct fuel as [|fuel]; [simpl in Hf; lia|].
    simpl in *. destruct p as [|q p]; [simpl in Hp; lia|].
    rewrite take_app_length', drop_app_length' by done.
    f_equal. apply IH. lia.
Qed.

Lemma concat_length_ge n (ps : list (list Q)) :
  (0 < n)%nat -> Forall (λ p, length p = n) ps ->
  (length ps <= length (concat ps))%nat.
Proof.
  intros Hn Hps. induction Hps as [|p ps Hp _ IH]; simpl; [lia|].
  rewrite length_app. lia.
Qed.

Lemma getCoordinates_track mode text :
  getCoordinates (track mode text)
  = (λ mt, point mode mt.1 mt.2)
    <$> stamped initial_date (-1) (split_NEWLINE_RE text).
Proof.
  unfold getCoordinates, track, decode. simpl ls_flatCoordinates. simpl ls_layout.
  rewrite loop_flatCoordinates. simpl flatCoordinates.
  change (date_of initial) with initial_date.
  change (lastDateTime initial) with (-1). simpl app.
  set (ps := _ <$> _).
  assert (Forall (λ p : list Q,
    length p = stride (if bool_decide (mode = IGCZ.NONE) then XYM else XYZM)) ps) as Hps.
  { subst ps. apply Forall_fmap, Forall_true. intros [m t]. apply point_length. }
  apply inflateCoordinates_concat; [by destruct (bool_decide _); simpl; lia|done|].
  eapply concat_length_ge; [|done]. by destruct (bool_decide _); simpl; lia.
Qed.

Lemma point_last mode m t : last (point mode m t) = Some (inject_Z t / 1000)%Q.
Proof.
  unfold point. rewrite !app_assoc. apply last_snoc.
Qed.

Lemma time_components_track mode text :
  time_components (track mode text)
  = seconds <$> sequence (-1) (candidates initial_date (split_NEWLINE_RE text)).
Proof.
  unfold time_components. rewrite getCoordinates_track.
  rewrite <- stamped_sequence.
  induction (stamped _ _ _) as [|[m t] l IH]; [done|].
  rewrite !fmap_cons. cbn [omap list_omap]. rewrite point_last.
  f_equal. apply IH.
Qed.

(** ** Every stamped fix is a match, and their points are the track's *)

Lemma stamped_groups_ok dc last lines :
  Forall (λ mt : BMatch * Z, groups_ok mt.1) (stamped dc last lines).
Proof.
  revert dc last. induction lines as [|line lines IH]; intros dc last; simpl.
  - constructor.
  - destruct (B_RECORD_RE line) as [m|] eqn:HB.
    + constructor; [|apply IH]. by apply B_RECORD_RE_inv in HB as [? _].
    + destruct (HFDTE_RECORD_RE line); apply IH.
Qed.

Lemma track_points mode text (P : BMatch -> list Q -> Prop) :
  (forall m t, groups_ok m -> P m (point mode m t)) ->
  Forall2 P (fixes text) (getCoordinates (track mode text)).
Proof.
  intros HP. unfold fixes. rewrite getCoordinates_track.
  rewrite <- (stamped_fixes initial_date (-1)).
  apply Forall2_fmap, Forall_Forall2_diag.
  eapply Forall_impl; [apply stamped_groups_ok|].
  intros [m t] Hm. by apply HP.
Qed.

(** ** The sequencer on candidates *)

Lemma stamp_ge last c : last <= c + Date.msPerDay -> last <= stamp last c.
Proof. unfold stamp. destruct (Z.ltb_spec c last); lia. Qed.

Lemma stamp_le last c : stamp last c <= c + Date.msPerDay.
Proof. unfold stamp, Date.msPerDay. destruct (Z.ltb_spec c last); lia. Qed.

Lemma stamp_id last c : last <= c -> stamp last c = c.
Proof. unfold stamp. destruct (Z.ltb_spec c last); lia. Qed.

Lemma seconds_le a b : a <= b -> (seconds a <= seconds b)%Q.
Proof. unfold seconds, Qle. simpl. lia. Qed.

Lemma seconds_sorted l : Sorted Z.le l -> Sorted Qle (seconds <$> l).
Proof.
  induction 1 as [|a l Hs IH Hd]; [constructor|].
  rewrite fmap_cons. constructor; [done|].
  destruct Hd; [constructor|]. rewrite fmap_cons. constructor.
  by apply seconds_le.
Qed.

(** ** Candidates are never negative *)

Lemma HFDTE_RECORD_RE_inv line d :
  HFDTE_RECORD_RE line = Some d ->
  String.length (d1 d) = 2%nat /\ String.length (d2 d) = 2%nat /\
  String.length (d3 d) = 2%nat.
Proof.
  unfold HFDTE_RECORD_RE. intros H.
  destruct (take_literal "HFDTE" line) as [s0|]; [|done].
  cbn [mbind option_bind] in H.
  repeat match type of H with
  | context [take_digits ?n ?s] =>
      let E := fresh "E" in
      destruct (take_digits n s) as [[? ?]|] eqn:E; [|done];
      cbn [mbind option_bind] in H;
      apply take_digits_inv in E as (-> & ? & ?)
  end.
  by simplify_eq.
Qed.

Lemma header_date_ok line d : HFDTE_RECORD_RE line = Some d -> date_ok (header_date d).
Proof.
  intros H. apply HFDTE_RECORD_RE_inv in H as (L1 & L2 & L3).
  pose proof (parseInt_lt _ _ 100 L1 eq_refl).
  pose proof (parseInt_lt _ _ 100 L2 eq_refl).
  pose proof (parseInt_lt _ _ 100 L3 eq_refl).
  unfold date_ok, header_date. simpl. lia.
Qed.

Lemma candidate_nonneg dc m : date_ok dc -> groups_ok m -> 0 <= candidate dc m.
Proof.
  intros (Hy & Hm & Hd) [[L1 _] [L2 _] [L3 _] _ _ _ _ _ _ _ _ _].
  pose proof (parseInt_lt _ _ 100 L1 eq_refl).
  pose proof (parseInt_lt _ _ 100 L2 eq_refl).
  pose proof (parseInt_lt _ _ 100 L3 eq_refl).
  unfold candidate. apply UTC_range; lia.
Qed.

Lemma candidates_nonneg lines : forall dc,
  date_ok dc -> Forall (λ c, 0 <= c) (candidates dc lines).
Proof.
  induction lines as [|line lines IH]; intros dc Hdc; simpl; [constructor|].
  destruct (B_RECORD_RE line) as [m|] eqn:HB.
  - constructor; [|by apply IH].
    apply candidate_nonneg; [done|]. by apply B_RECORD_RE_inv in HB as [? _].
  - destruct (HFDTE_RECORD_RE line) as [d|] eqn:HD; apply IH; [|done].
    by eapply header_date_ok.
Qed.

Lemma initial_date_ok : date_ok initial_date.
Proof. unfold date_ok, initial_date. simpl. lia. Qed.

(** ** The scenarios of the specification *)

(** 23 August 2020, 10:11:10, 50 degrees north, 1 degree east, GPS
    altitude 123: one point of four components. *)
Example scenario_gps :
  Forall2 (Forall2 Qeq) (getCoordinates (track IGCZ.GPS valid_fix))
    [[1%Q; 50%Q; 123%Q; 1598177470%Q]].
Proof.
  remember (getCoordinates (track IGCZ.GPS valid_fix)) as g eqn:E.
  vm_compute in E. subst g. repeat constructor.
Qed.

(** The same document without altitude: three components. *)
Example scenario_none :
  Forall2 (Forall2 Qeq) (getCoordinates (track IGCZ.NONE valid_fix))
    [[1%Q; 50%Q; 1598177470%Q]].
Proof.
  remember (getCoordinates (track IGCZ.NONE valid_fix)) as g eqn:E.
  vm_compute in E. subst g. repeat constructor.
Qed.

(** A line that starts with neither [B] nor [H] changes nothing. *)
Example scenario_garbage mode st : loop_body mode st "XGARBAGE" = st.
Proof. reflexivity. Qed.

(** * The claims *)

(** ** C1: are the time components non-decreasing? *)

(** C1, refuted as stated: the track decoded from [two_midnights] has the
    time components 2000-01-01T23:00, 2000-01-02T01:00, 2000-01-02T23:00 and
    again 2000-01-02T01:00; the last one is below its predecessor, so the
    sequence is not non-decreasing. *)
Lemma time_components_two_midnights :
  time_components (track IGCZ.NONE two_midnights)
    = [seconds 946767600000; seconds 946774800000; seconds 946854000000;
       seconds 946774800000]
  /\ ~ Sorted Qle (time_components (track IGCZ.NONE two_midnights)).
Proof.
  assert (time_components (track IGCZ.NONE two_midnights)
    = [seconds 946767600000; seconds 946774800000; seconds 946854000000;
       seconds 946774800000]) as E by (vm_compute; reflexivity).
  split; [exact E|]. rewrite E. intros H.
  inversion H as [|? ? H1 _]; subst. inversion H1 as [|? ? H2 _]; subst.
  inversion H2 as [|? ? _ H3]; subst. inversion H3 as [|? ? Hle]; subst.
  revert Hle. unfold seconds, Qle. simpl. lia.
Qed.

Lemma seconds_le_inv a b : (seconds a <= seconds b)%Q -> a <= b.
Proof. unfold seconds, Qle. simpl. lia. Qed.

Lemma seconds_sorted_inv l : Sorted Qle (seconds <$> l) -> Sorted Z.le l.
Proof.
  induction l as [|a l IH]; [constructor|].
  rewrite fmap_cons. intros H. inversion H as [|? ? Hs Hd]; subst.
  constructor; [by apply IH|].
  destruct l as [|b l]; [constructor|]. rewrite fmap_cons in Hd.
  inversion Hd; subst. constructor. by apply seconds_le_inv.
Qed.

(** Each timestamp is the stamp of its candidate against the timestamp
    before it. *)
Lemma sequence_lookup cands : forall last i prev c,
  (last :: sequence last cands) !! i = Some prev -> cands !! i = Some c ->
  sequence last cands !! i = Some (stamp prev c).
Proof.
  induction cands as [|c0 cands IH]; intros last i prev c Hp Hc; [done|].
  destruct i as [|i]; simpl in *; [by simplify_eq|].
  by apply IH.
Qed.

(** The timestamps, with the one before them, are non-decreasing exactly
    when no candidate is more than one day below the timestamp before
    it. *)
Lemma sequence_sorted_iff cands : forall last,
  Sorted Z.le (last :: sequence last cands)
  <-> forall i prev c,
        (last :: sequence last cands) !! i = Some prev -> cands !! i = Some c ->
        prev <= c + Date.msPerDay.
Proof.
  induction cands as [|c0 cands IH]; intros last.
  - split; [by intros _ i prev c _ ?|]. intros _. repeat constructor.
  - simpl sequence. split.
    + intros H i prev c Hp Hc. inversion H as [|? ? Hs Hd]; subst.
      destruct i as [|i].
      * simpl in *. simplify_eq. inversion Hd; subst.
        pose proof (stamp_le prev c). lia.
      * apply (proj1 (IH (stamp last c0)) Hs i prev c); done.
    + intros H. constructor.
      * apply IH. intros i prev c Hp Hc. by apply (H (S i) prev c).
      * constructor. apply stamp_ge. by apply (H 0%nat last c0).
Qed.

(** C1, amended: a fix whose candidate (the calendar timestamp of the date
    context in force and the fix's hour, minute and second) is below the
    timestamp of the fix before it, or below -1 for the first fix, is
    stamped exactly one day after its candidate, and any other fix with
    its candidate; the time components are these stamps in seconds; and
    they are non-decreasing if and only if no fix has its candidate more
    than one day below the timestamp of the fix before it. *)
Theorem time_components_sorted_iff (altitudeMode text : string) :
  let cands := candidates initial_date (split_NEWLINE_RE text) in
  let stamps := sequence (-1) cands in
  time_components (track altitudeMode text) = seconds <$> stamps
  /\ (forall i prev c,
        (-1 :: stamps) !! i = Some prev -> cands !! i = Some c ->
        stamps !! i = Some (if c <? prev then c + Date.msPerDay else c))
  /\ (Sorted Qle (time_components (track altitudeMode text))
      <-> forall i prev c,
            (-1 :: stamps) !! i = Some prev -> cands !! i = Some c ->
            prev <= c + Date.msPerDay).
Proof.
  intros cands stamps. split; [apply time_components_track|].
  split; [intros i prev c; apply sequence_lookup|].
  rewrite time_components_track. fold cands. fold stamps.
  pose proof (candidates_nonneg (split_NEWLINE_RE text) _ initial_date_ok) as Hn.
  fold cands in Hn. split.
  - intros H%seconds_sorted_inv.
    apply (proj1 (sequence_sorted_iff cands (-1))). constructor; [done|].
    subst stamps. destruct cands as [|c cands]; [constructor|].
    simpl. constructor. inversion Hn; subst. rewrite stamp_id; lia.
  - intros H. apply (proj2 (sequence_sorted_iff cands (-1))) in H.
    apply seconds_sorted. by inversion H.
Qed.

(** The document [two_dates]: its candidates descend twice, after the first
    and after the fourth fix, each time by less than a day, and its time
    components are non-decreasing. *)
Lemma time_components_sorted_iff_witness :
  candidates initial_date (split_NEWLINE_RE two_dates)
  = [1577919600000; 1577840400000; 1577930400000; 1578006000000; 1577926800000]
  /\ Sorted Qle (time_components (track IGCZ.NONE two_dates)).
Proof.
  assert (candidates initial_date (split_NEWLINE_RE two_dates)
    = [1577919600000; 1577840400000; 1577930400000; 1578006000000; 1577926800000])
    as E by (vm_compute; reflexivity).
  split; [exact E|].
  apply (proj2 (proj2 (time_components_sorted_iff IGCZ.NONE two_dates))).
  rewrite E. intros i prev c.
  change (sequence (-1)
    [1577919600000; 1577840400000; 1577930400000; 1578006000000; 1577926800000])
    with [1577919600000; 1577926800000; 1577930400000; 1578006000000; 1578013200000].
  destruct i as [|[|[|[|[|i]]]]]; cbn; intros Hp Hc; simplify_eq;
    unfold Date.msPerDay; lia.
Defined.

(** ** C2: the timestamp of a fix *)

(** C2, refuted as stated: in [two_wraps] the third and fourth fixes are
    consecutive, at 23:59:58 and 00:00:02, with no date header between
    them; the candidates of both are below the previous timestamp and both
    are recomputed with day + 1, so the fourth timestamp is 86396 seconds
    below the third, not 4 seconds above. *)
Lemma two_wraps_difference :
  time_of_day <$> fixes two_wraps
    = [(23, 59, 58); (0, 0, 2); (23, 59, 58); (0, 0, 2)]
  /\ time_components (track IGCZ.NONE two_wraps)
     = [seconds 946771198000; seconds 946771202000; seconds 946857598000;
        seconds 946771202000]
  /\ ~ (seconds 946771202000 == seconds 946857598000 + 4)%Q.
Proof.
  split; [vm_compute; reflexivity|]. split; [vm_compute; reflexivity|].
  unfold seconds, Qeq. simpl. lia.
Qed.

Lemma loop_no_fix_no_date mode lines : forall st,
  no_fix_no_date lines ->
  lastDateTime (loop mode st lines) = lastDateTime st /\
  date_of (loop mode st lines) = date_of st.
Proof.
  induction lines as [|line lines IH]; intros st H; [done|].
  inversion H as [|? ? [HB HD] H']; subst.
  unfold loop in *. simpl fold_left.
  destruct (IH (loop_body mode st line) H') as [-> ->].
  by destruct (loop_body_other mode st line HB HD) as (_ & -> & ->).
Qed.

Lemma loop_app mode st l1 l2 :
  loop mode st (l1 ++ l2) = loop mode (loop mode st l1) l2.
Proof. apply fold_left_app. Qed.

(** C2, amended: the timestamp of a decoded fix is the calendar timestamp
    of the current date context and the fix's hour, minute and second,
    recomputed with day + 1 when that candidate is strictly below the
    previous fix's timestamp, and its thousandth is what the buffer
    receives; for a fix at 23:59:58 followed, with no fix and no date header
    in between, by a fix at 00:00:02, the second timestamp exceeds the first
    by exactly 4 seconds (4000 ms) provided the first fix was not itself
    moved to day + 1, that is, its candidate is not below the timestamp
    before it. *)
Theorem fix_timestamp (altitudeMode : string) (st : Locals) (line : string)
    (m : BMatch) :
  B_RECORD_RE line = Some m ->
  let hour := parseInt (b1 m) in
  let minute := parseInt (b2 m) in
  let second := parseInt (b3 m) in
  let cand := Date.UTC (year st) (month st) (day st) hour minute second in
  let st' := loop_body altitudeMode st line in
  lastDateTime st'
  = (if cand <? lastDateTime st
     then Date.UTC (year st) (month st) (day st + 1) hour minute second
     else cand)
  /\ last (flatCoordinates st') = Some (seconds (lastDateTime st'))
  /\ forall between line2 m2,
       no_fix_no_date between ->
       B_RECORD_RE line2 = Some m2 ->
       time_of_day m = (23, 59, 58) -> time_of_day m2 = (0, 0, 2) ->
       lastDateTime st <= cand ->
       lastDateTime (loop altitudeMode st' (between ++ [line2]))
       = lastDateTime st' + 4000.
Proof.
  intros HB hour minute second cand st'.
  assert (st' = push_fix altitudeMode st m) as Est by (by apply loop_body_fix).
  split; [by rewrite Est|]. split.
  { rewrite Est, push_fix_flatCoordinates. unfold point.
    rewrite !app_assoc. apply last_snoc. }
  intros between line2 m2 Hbetween HB2 Hm Hm2 Hlast.
  rewrite loop_app.
  destruct (loop_no_fix_no_date altitudeMode between st' Hbetween) as [Hl Hd].
  unfold loop at 1. simpl fold_left.
  rewrite (loop_body_fix _ _ _ _ HB2), push_fix_lastDateTime, Hl, Hd.
  rewrite Est, push_fix_lastDateTime.
  change (date_of (push_fix altitudeMode st m)) with (date_of st).
  unfold time_of_day in Hm, Hm2. injection Hm as E1 E2 E3.
  injection Hm2 as F1 F2 F3.
  assert (candidate (date_of st) m = cand) as -> by done.
  rewrite (stamp_id _ _ Hlast).
  unfold candidate, stamp. rewrite F1, F2, F3.
  subst cand hour minute second. rewrite E1, E2, E3. simpl dc_year.
  simpl dc_month. simpl dc_day.
  unfold Date.UTC, Date.MakeDate, Date.MakeTime, Date.msPerDay, Date.msPerHour,
    Date.msPerMinute, Date.msPerSecond.
  destruct (Z.ltb_spec
    (Date.MakeDay (if (0 <=? year st) && (year st <=? 99) then 1900 + year st
                   else year st) (month st) (day st) * 86400000
     + (0 * 3600000 + 0 * 60000 + 2 * 1000 + 0))
    (Date.MakeDay (if (0 <=? year st) && (year st <=? 99) then 1900 + year st
                   else year st) (month st) (day st) * 86400000
     + (23 * 3600000 + 59 * 60000 + 58 * 1000 + 0))); lia.
Qed.

(** The first two fixes of a document, an ignored line between them. *)
Lemma fix_timestamp_witness :
  lastDateTime
    (loop IGCZ.NONE
       (loop_body IGCZ.NONE initial "B2359585000000N00100000EA0012300089")
       (["XGARBAGE"] ++ ["B0000025000000N00100000EA0012300089"]))
  = lastDateTime
      (loop_body IGCZ.NONE initial "B2359585000000N00100000EA0012300089") + 4000.
Proof.
  refine (proj2 (proj2 (fix_timestamp IGCZ.NONE initial
    "B2359585000000N00100000EA0012300089"
    {| b1 := "23"; b2 := "59"; b3 := "58"; b4 := "50"; b5 := "00000";
       b6 := "N"; b7 := "001"; b8 := "00000"; b9 := "E"; b10 := "A";
       b11 := "00123"; b12 := "00089" |} _))
    ["XGARBAGE"] "B0000025000000N00100000EA0012300089"
    {| b1 := "00"; b2 := "00"; b3 := "02"; b4 := "50"; b5 := "00000";
       b6 := "N"; b7 := "001"; b8 := "00000"; b9 := "E"; b10 := "A";
       b11 := "00123"; b12 := "00089" |} _ _ _ _ _).
  - vm_compute. reflexivity.
  - repeat constructor.
  - vm_compute. reflexivity.
  - vm_compute. reflexivity.
  - vm_compute. reflexivity.
  - vm_compute. discriminate.
Defined.

(** ** C3: the range of latitude and longitude *)

(** *** Rounding to a double is monotone *)

Lemma pow2_pos e : (0 < 2 ^ e)%Q.
Proof. apply Qpower_0_lt. reflexivity. Qed.

Lemma pow2_le e1 e2 : e1 <= e2 -> (2 ^ e1 <= 2 ^ e2)%Q.
Proof. intros H. apply Qpower_le_compat_l; [exact H|discriminate]. Qed.

Lemma pow2_plus a b : (2 ^ (a + b) == 2 ^ a * 2 ^ b)%Q.
Proof. apply Qpower_plus. discriminate. Qed.

Lemma pow2_succ a : (2 ^ (a + 1) == 2 * 2 ^ a)%Q.
Proof. rewrite pow2_plus. change (2 ^ 1)%Q with 2%Q. ring. Qed.

Lemma pow2_Z a : 0 <= a -> (2 ^ a == inject_Z (2 ^ a))%Q.
Proof. intros H. symmetry. apply (Zpower_Qpower 2 a H). Qed.

Lemma log2_bounds n : 0 < n ->
  (2 ^ Z.log2 n <= inject_Z n /\ inject_Z n < 2 * 2 ^ Z.log2 n)%Q.
Proof.
  intros H. destruct (Z.log2_spec n H) as [H1 H2].
  pose proof (Z.log2_nonneg n) as Hn.
  rewrite <- pow2_succ. rewrite !pow2_Z by lia.
  replace (Z.log2 n + 1) with (Z.succ (Z.log2 n)) by lia.
  rewrite <- Zle_Qle, <- Zlt_Qlt. split; assumption.
Qed.

Lemma exponent_spec x :
  (0 < x)%Q -> (2 ^ exponent x <= x /\ x < 2 ^ (exponent x + 1))%Q.
Proof.
  intros Hx. unfold exponent.
  set (a := Z.log2 (Qnum x)). set (b := Z.log2 (Z.pos (Qden x))).
  assert (0 < Qnum x) as Hn by (destruct x as [n d]; unfold Qlt in Hx; simpl in *; lia).
  destruct (log2_bounds (Qnum x) Hn) as [A1 A2]. fold a in A1, A2.
  destruct (log2_bounds (Z.pos (Qden x)) eq_refl) as [B1 B2]. fold b in B1, B2.
  assert (x * inject_Z (Z.pos (Qden x)) == inject_Z (Qnum x))%Q as E.
  { destruct x as [n d]. simpl. rewrite (Qmake_Qdiv n d). field.
    unfold Qeq. simpl. lia. }
  set (N := inject_Z (Qnum x)) in *. set (D := inject_Z (Z.pos (Qden x))) in *.
  assert (0 < D)%Q as HD by (unfold D, Qlt; simpl; lia).
  pose proof (pow2_pos b) as Pb. pose proof (pow2_pos (a - b)) as Pk.
  pose proof (pow2_pos (a - b - 1)) as Pk1.
  assert (2 ^ a == 2 ^ (a - b) * 2 ^ b)%Q as Ea
    by (rewrite <- pow2_plus; replace (a - b + b) with a by lia; reflexivity).
  assert (2 ^ (a - b) == 2 * 2 ^ (a - b - 1))%Q as Ek
    by (rewrite <- pow2_succ; replace (a - b - 1 + 1) with (a - b) by lia; reflexivity).
  assert (x < 2 * 2 ^ (a - b))%Q as Hup.
  { apply (Qmult_lt_r _ _ D HD). rewrite E.
    apply (Qlt_le_trans _ (2 * 2 ^ a)); [exact A2|]. rewrite Ea.
    rewrite <- !Qmult_assoc. apply Qmult_le_l; [reflexivity|].
    apply Qmult_le_l; [exact Pk|exact B1]. }
  assert (2 ^ (a - b - 1) <= x)%Q as Hlow.
  { apply (Qmult_le_r _ _ D HD). rewrite E.
    apply (Qle_trans _ (2 ^ a)); [|exact A1]. rewrite Ea, Ek.
    assert (2 * 2 ^ (a - b - 1) * 2 ^ b == 2 ^ (a - b - 1) * (2 * 2 ^ b))%Q as ->
      by ring.
    apply Qmult_le_l; [exact Pk1|]. apply Qlt_le_weak. exact B2. }
  destruct (Qle_bool (2 ^ (a - b)) x) eqn:Hc.
  - apply Qle_bool_iff in Hc. split; [exact Hc|]. rewrite pow2_succ. exact Hup.
  - split; [exact Hlow|]. replace (a - b - 1 + 1) with (a - b) by lia.
    apply Qnot_le_lt. intros Hle. apply Qle_bool_iff in Hle. congruence.
Qed.

Lemma exponent_le x y : (0 < x)%Q -> (x <= y)%Q -> exponent x <= exponent y.
Proof.
  intros Hx Hxy. assert (0 < y)%Q as Hy by (eapply Qlt_le_trans; eassumption).
  destruct (exponent_spec x Hx) as [X1 X2]. destruct (exponent_spec y Hy) as [Y1 Y2].
  destruct (Z_lt_le_dec (exponent y) (exponent x)) as [Hlt|Hle]; [|exact Hle].
  exfalso. assert (2 ^ (exponent y + 1) <= 2 ^ exponent x)%Q as H by (apply pow2_le; lia).
  lra.
Qed.

Lemma roundTiesToEven_floor q :
  Qfloor q <= roundTiesToEven q <= Qfloor q + 1.
Proof.
  unfold roundTiesToEven. destruct (_ ?= _)%Q; [destruct (Z.even _)| |]; lia.
Qed.

Lemma roundTiesToEven_Z k : roundTiesToEven (inject_Z k) = k.
Proof.
  unfold roundTiesToEven. rewrite Qfloor_Z.
  destruct (Qcompare_spec (inject_Z k - inject_Z k) (1 # 2)) as [H|H|H]; [lra|reflexivity|lra].
Qed.

Lemma roundTiesToEven_le q1 q2 :
  (q1 <= q2)%Q -> roundTiesToEven q1 <= roundTiesToEven q2.
Proof.
  intros H. pose proof (Qfloor_resp_le _ _ H) as Hf.
  pose proof (roundTiesToEven_floor q1) as F1.
  pose proof (roundTiesToEven_floor q2) as F2.
  destruct (Z.eq_dec (Qfloor q1) (Qfloor q2)) as [E|NE]; [|lia].
  unfold roundTiesToEven in *. rewrite <- E in *.
  destruct (Qcompare_spec (q1 - inject_Z (Qfloor q1)) (1 # 2)) as [H1|H1|H1];
  destruct (Qcompare_spec (q2 - inject_Z (Qfloor q1)) (1 # 2)) as [H2|H2|H2];
  try lia; try lra; destruct (Z.even (Qfloor q1)); lia.
Qed.

Lemma round_positive_bounds x :
  (0 < x)%Q ->
  (2 ^ exponent x <= round_positive x /\ round_positive x <= 2 ^ (exponent x + 1))%Q.
Proof.
  intros Hx. destruct (exponent_spec x Hx) as [X1 X2]. unfold round_positive.
  set (e := exponent x) in *.
  pose proof (pow2_pos (52 - e)) as Ps. pose proof (pow2_pos (e - 52)) as Pi.
  assert (2 ^ e * 2 ^ (52 - e) == inject_Z (2 ^ 52))%Q as E1.
  { rewrite <- pow2_plus. replace (e + (52 - e)) with 52 by lia. reflexivity. }
  assert (2 ^ (e + 1) * 2 ^ (52 - e) == inject_Z (2 ^ 53))%Q as E2.
  { rewrite <- pow2_plus. replace (e + 1 + (52 - e)) with 53 by lia. reflexivity. }
  assert (inject_Z (2 ^ 52) * 2 ^ (e - 52) == 2 ^ e)%Q as E3.
  { change (inject_Z (2 ^ 52)) with (2 ^ 52)%Q. rewrite <- pow2_plus.
    replace (52 + (e - 52)) with e by lia. reflexivity. }
  assert (inject_Z (2 ^ 53) * 2 ^ (e - 52) == 2 ^ (e + 1))%Q as E4.
  { change (inject_Z (2 ^ 53)) with (2 ^ 53)%Q. rewrite <- pow2_plus.
    replace (53 + (e - 52)) with (e + 1) by lia. reflexivity. }
  assert (inject_Z (2 ^ 52) <= x * 2 ^ (52 - e))%Q as L1.
  { rewrite <- E1. apply Qmult_le_r; assumption. }
  assert (x * 2 ^ (52 - e) <= inject_Z (2 ^ 53))%Q as L2.
  { rewrite <- E2. apply Qlt_le_weak. apply Qmult_lt_r; assumption. }
  apply roundTiesToEven_le in L1, L2. rewrite roundTiesToEven_Z in L1, L2.
  rewrite <- E3, <- E4. split; apply Qmult_le_r; try assumption;
    rewrite <- Zle_Qle; assumption.
Qed.

Lemma round_positive_le x y :
  (0 < x)%Q -> (x <= y)%Q -> (round_positive x <= round_positive y)%Q.
Proof.
  intros Hx Hxy. assert (0 < y)%Q as Hy by (eapply Qlt_le_trans; eassumption).
  pose proof (exponent_le x y Hx Hxy) as He.
  destruct (Z.eq_dec (exponent x) (exponent y)) as [E|NE].
  - unfold round_positive. rewrite E.
    apply Qmult_le_r; [apply pow2_pos|]. rewrite <- Zle_Qle.
    apply roundTiesToEven_le. apply Qmult_le_r; [apply pow2_pos|exact Hxy].
  - destruct (round_positive_bounds x Hx) as [_ X]. destruct (round_positive_bounds y Hy) as [Y _].
    assert (2 ^ (exponent x + 1) <= 2 ^ exponent y)%Q by (apply pow2_le; lia). lra.
Qed.

Lemma double_nonneg x : (0 <= x)%Q -> (0 <= double x)%Q.
Proof.
  intros Hx. unfold double. destruct (Qcompare_spec x 0) as [H|H|H]; [lra|lra|].
  destruct (round_positive_bounds x H) as [Hb _]. pose proof (pow2_pos (exponent x)). lra.
Qed.

Lemma double_le x y : (0 <= x)%Q -> (x <= y)%Q -> (double x <= double y)%Q.
Proof.
  intros Hx Hxy. unfold double at 1. destruct (Qcompare_spec x 0) as [H|H|H]; [|lra|].
  - apply double_nonneg. lra.
  - unfold double. destruct (Qcompare_spec y 0) as [H'|H'|H']; [lra|lra|].
    apply round_positive_le; assumption.
Qed.

(** *** Integers and whole seconds are doubles already

    The altitude is an integer below 100000, and the time pushed is
    [dateTime / 1000] for a [dateTime] that is a multiple of 1000 below
    5e15: dividing and pushing them rounds nothing. *)

Lemma roundTiesToEven_Qeq q1 q2 :
  (q1 == q2)%Q -> roundTiesToEven q1 = roundTiesToEven q2.
Proof.
  intros E. apply Z.le_antisymm; apply roundTiesToEven_le; rewrite E; apply Qle_refl.
Qed.

Lemma double_Z k : 0 <= k < 2 ^ 53 -> (double (inject_Z k) == inject_Z k)%Q.
Proof.
  intros [H0 H1]. unfold double.
  destruct (Qcompare_spec (inject_Z k) 0) as [H|H|H]; [by rewrite H| |].
  { revert H. unfold Qlt, inject_Z. simpl. lia. }
  destruct (exponent_spec _ H) as [X1 X2]. unfold round_positive.
  set (e := exponent (inject_Z k)) in *.
  assert (0 <= e <= 52) as He.
  { split.
    - destruct (Z_lt_le_dec e 0) as [Hlt|]; [|done]. exfalso.
      assert (2 ^ (e + 1) <= 2 ^ 0)%Q as Hp by (apply pow2_le; lia).
      change (2 ^ 0)%Q with (inject_Z 1) in Hp.
      assert (inject_Z k < inject_Z 1)%Q as Hk by lra.
      rewrite <- Zlt_Qlt in Hk. revert H. unfold Qlt, inject_Z. simpl. lia.
    - destruct (Z_lt_le_dec 52 e) as [Hlt|]; [|lia]. exfalso.
      assert (2 ^ 53 <= 2 ^ e)%Q as Hp by (apply pow2_le; lia).
      rewrite (pow2_Z 53) in Hp by lia.
      assert (inject_Z (2 ^ 53) <= inject_Z k)%Q as Hk by lra.
      rewrite <- Zle_Qle in Hk. lia. }
  assert (inject_Z k * 2 ^ (52 - e) == inject_Z (k * 2 ^ (52 - e)))%Q as E1.
  { rewrite (pow2_Z (52 - e)) by lia. by rewrite inject_Z_mult. }
  rewrite (roundTiesToEven_Qeq _ _ E1), roundTiesToEven_Z.
  rewrite inject_Z_mult, <- (pow2_Z (52 - e)) by lia.
  rewrite <- Qmult_assoc, <- pow2_plus.
  replace (52 - e + (e - 52)) with 0 by lia. change (2 ^ 0)%Q with 1%Q. ring.
Qed.

Lemma double_Qeq x y : (0 <= x)%Q -> (x == y)%Q -> (double x == double y)%Q.
Proof.
  intros Hx E. apply Qle_antisym; apply double_le; rewrite ?E; try apply Qle_refl.
  - by rewrite <- E.
  - by rewrite <- E.
Qed.

Lemma UTC_thousand y mo d h mi s :
  exists k, Date.UTC y mo d h mi s = 1000 * k.
Proof.
  unfold Date.UTC, Date.MakeDate, Date.MakeTime, Date.msPerDay, Date.msPerHour,
    Date.msPerMinute, Date.msPerSecond.
  set (days := Date.MakeDay _ _ _).
  exists (days * 86400 + (h * 3600 + mi * 60 + s)). lia.
Qed.

Lemma seconds_double k :
  0 <= k < 2 ^ 53 -> (double (seconds (1000 * k)) == seconds (1000 * k))%Q.
Proof.
  intros Hk.
  assert (seconds (1000 * k) == inject_Z k)%Q as E.
  { unfold seconds. rewrite inject_Z_mult. field. }
  assert (0 <= seconds (1000 * k))%Q as H0
    by (unfold seconds, Qle, Qdiv, Qmult, Qinv, inject_Z; simpl; lia).
  rewrite (double_Qeq _ _ H0 E). rewrite E. by apply double_Z.
Qed.

(** [double] against the Standard Library's IEEE 754 specification, on the
    corners of the ranges and a spread of fields in between. *)
Example double_agrees_with_SpecFloat :
  forallb
    (λ degrees,
       forallb
         (λ minutes,
            Qeq_bool (degrees_minutes degrees minutes) (SF_degrees degrees minutes))
         ([1; 59999; 60000; 99999]
            ++ List.map (λ k, Z.of_nat k * 331) (seq 0 303)))
    [0; 1; 2; 47; 64; 90; 99; 128; 180; 512; 999]
  = true.
Proof. vm_compute. reflexivity. Qed.

(** The two bounds: they lie a little above the exact sums. *)
Example max_latitude_value :
  (max_latitude == 885473217634055 # 8796093022208)%Q
  /\ (max_longitude == 8801956937621255 # 8796093022208)%Q
  /\ (99 + 99999 / 60000 < max_latitude)%Q
  /\ (999 + 99999 / 60000 < max_longitude)%Q.
Proof. repeat split. Qed.

(** *** The claim *)






(** ** C4: the components of a point under the three altitude modes *)

(** C4: under [NONE] (also the default of the constructor) every point of
    the track is [x, y, t]; under [GPS] it is [x, y, z, t] with [z] the first
    trailing five-digit field; under [BAROMETRIC] it is [x, y, z, t] with
    [z] the second one; the points are those of the decoded fixes, in
    order, and the track's layout has the matching stride. *)
Theorem point_components (text : string) :
  altitudeMode_ (constructor None) = IGCZ.NONE
  /\ (stride (ls_layout (track (altitudeMode_ (with_mode IGCZ.NONE)) text)) = 3%nat
      /\ Forall2
           (λ m p, exists t, p = [longitude m; latitude m; t])
           (fixes text)
           (getCoordinates (track (altitudeMode_ (with_mode IGCZ.NONE)) text)))
  /\ (stride (ls_layout (track (altitudeMode_ (with_mode IGCZ.GPS)) text)) = 4%nat
      /\ Forall2
           (λ m p, exists t,
              p = [longitude m; latitude m; inject_Z (parseInt (b11 m)); t])
           (fixes text)
           (getCoordinates (track (altitudeMode_ (with_mode IGCZ.GPS)) text)))
  /\ (stride (ls_layout (track (altitudeMode_ (with_mode IGCZ.BAROMETRIC)) text)) = 4%nat
      /\ Forall2
           (λ m p, exists t,
              p = [longitude m; latitude m; inject_Z (parseInt (b12 m)); t])
           (fixes text)
           (getCoordinates (track (altitudeMode_ (with_mode IGCZ.BAROMETRIC)) text))).
Proof.
  split; [done|].
  repeat split; try done; apply track_points; intros m t _; by eexists.
Qed.

(** ** C10: a mode that is none of the three *)

(** C10, refuted as stated: the empty string is a string other than
    ['none'], yet the constructor takes it as absent and falls back to
    [NONE]; the one fix of [far_north] then gives a point of 3 components. *)
Lemma empty_mode_is_none :
  "" <> IGCZ.NONE
  /\ altitudeMode_ (with_mode "") = IGCZ.NONE
  /\ length <$> getCoordinates (track (altitudeMode_ (with_mode "")) far_north)
     = [3%nat].
Proof. split; [done|]. split; [done|]. vm_compute. reflexivity. Qed.

(** C10, amended: for a configured altitude mode that is a non-empty string
    other than ['none'], every point has 4 components [x, y, z, t], and
    [z] is 0 whenever the mode is neither ['gps'] nor ['barometric']. *)
Theorem unrecognized_mode (mode text : string) :
  mode <> "" -> mode <> IGCZ.NONE ->
  altitudeMode_ (with_mode mode) = mode
  /\ stride (ls_layout (track (altitudeMode_ (with_mode mode)) text)) = 4%nat
  /\ Forall2
       (λ m p, exists z t,
          p = [longitude m; latitude m; z; t]
          /\ (mode <> IGCZ.GPS -> mode <> IGCZ.BAROMETRIC -> z = 0%Q))
       (fixes text)
       (getCoordinates (track (altitudeMode_ (with_mode mode)) text)).
Proof.
  intros Hne Hnone.
  assert (altitudeMode_ (with_mode mode) = mode) as ->.
  { unfold with_mode, constructor. simpl. by rewrite bool_decide_eq_false_2. }
  split; [done|]. split.
  { unfold track. simpl. by rewrite bool_decide_eq_false_2. }
  apply track_points. intros m t _. unfold point.
  rewrite bool_decide_eq_false_2 by done. simpl.
  eexists _, _. split; [done|]. intros Hg Hb. unfold altitude.
  by rewrite !bool_decide_eq_false_2.
Qed.

(** The mode ['agl'] is none of the three. *)
Lemma unrecognized_mode_witness :
  Forall2
    (λ m p, exists z t,
       p = [longitude m; latitude m; z; t]
       /\ ("agl" <> IGCZ.GPS -> "agl" <> IGCZ.BAROMETRIC -> z = 0%Q))
    (fixes far_north)
    (getCoordinates (track (altitudeMode_ (with_mode "agl")) far_north)).
Proof.
  apply (unrecognized_mode "agl" far_north); discriminate.
Defined.

(** ** C5: the write methods *)

(** C5, refuted as stated: writing a feature with the default format
    returns [undefined]; nothing is thrown, so no "not implemented" outcome
    is signalled. *)
Lemma writeFeatureText_silent :
  writeFeatureText (constructor None) sample_feature (None : option unit)
    = Normal undefined
  /\ ~ exists e,
       writeFeatureText (constructor None) sample_feature (None : option unit)
         = Throw e.
Proof. split; [done|]. by intros [e ?]. Qed.

(** C5, amended: every write operation ([writeFeatureText],
    [writeFeaturesText], [writeGeometryText]), and [readGeometryFromText]
    as well, has an empty body: whatever its arguments it completes
    normally with [undefined] and throws nothing. *)
Theorem write_methods_return_undefined {ReadOptions : Type} (this : IGC)
    (feature : Feature) (features : list Feature) (geometry : LineString)
    (text : string) (opt_options : option ReadOptions) :
  writeFeatureText this feature opt_options = Normal undefined
  /\ writeFeaturesText this features opt_options = Normal undefined
  /\ writeGeometryText this geometry opt_options = Normal undefined
  /\ readGeometryFromText this text opt_options = Normal undefined.
Proof. done. Qed.

(** ** C6: which lines starting with [B] give a fix *)

(** C6, refuted as stated: [long_fix] starts with [B] and has the wrong
    length for the layout, so it does not parse as the 35-column layout, yet
    it is matched and gives a point. *)
Lemma long_fix_is_decoded :
  charAt0_is "B" long_fix = true
  /\ String.length long_fix = 40%nat
  /\ conforms fix_layout long_fix = false
  /\ is_Some (B_RECORD_RE long_fix)
  /\ length (flatCoordinates (loop_body IGCZ.NONE initial long_fix)) = 3%nat
  /\ length (readFeaturesFromText (λ g _ (_ : option unit), g)
               (constructor None) long_fix None) = 1%nat.
Proof.
  split; [done|]. split; [done|]. split; [vm_compute; reflexivity|].
  split; [by eexists; vm_compute|]. split; vm_compute; reflexivity.
Qed.

(** C6, amended: a line starting with [B] gives a fix if and only if its
    first 35 columns have the fixed-width layout (digits in every digit
    field, [N]/[S], [E]/[W] and [A]/[V] at their columns); what follows
    column 35 is not looked at.  Such a line adds exactly one point to the
    buffer; any other line starting with [B], too short or with a wrong
    character, leaves every local variable of the reader as it was. *)
Theorem fix_line_decoded (altitudeMode : string) (st : Locals) (line : string) :
  charAt0_is "B" line = true ->
  (is_Some (B_RECORD_RE line) <-> conforms_prefix fix_layout line = true)
  /\ (conforms_prefix fix_layout line = true ->
      exists m t,
        B_RECORD_RE line = Some m
        /\ flatCoordinates (loop_body altitudeMode st line)
           = flatCoordinates st ++ point altitudeMode m t)
  /\ (conforms_prefix fix_layout line = false ->
      loop_body altitudeMode st line = st).
Proof.
  intros HB. split; [apply B_RECORD_RE_layout|]. split.
  - intros Hc. apply B_RECORD_RE_layout in Hc as [m Hm].
    exists m, (lastDateTime (push_fix altitudeMode st m)). split; [done|].
    rewrite (loop_body_fix _ _ _ _ Hm). apply push_fix_flatCoordinates.
  - intros Hc. unfold loop_body. rewrite HB.
    destruct (B_RECORD_RE line) as [m|] eqn:Hm; [|done].
    assert (conforms_prefix fix_layout line = true) as Hc'
      by (by apply B_RECORD_RE_layout). congruence.
Qed.

(** A line starting with [B] that is too short. *)
Lemma fix_line_decoded_witness :
  loop_body IGCZ.GPS initial "B10111050000N" = initial.
Proof.
  refine (proj2 (proj2 (fix_line_decoded IGCZ.GPS initial "B10111050000N" _)) _).
  - reflexivity.
  - vm_compute. reflexivity.
Defined.

(** ** C7: a document without a fix *)

(** C7: when no line of the document decodes as a fix, [readFeatureFromText]
    returns [null] and [readFeaturesFromText] the empty list, whatever the
    headers collected. *)
Theorem no_fix_no_feature {ReadOptions : Type}
    (transformWithOptions : LineString -> bool -> option ReadOptions -> LineString)
    (this : IGC) (text : string) (opt_options : option ReadOptions) :
  fixes text = [] ->
  readFeatureFromText transformWithOptions this text opt_options = None
  /\ readFeaturesFromText transformWithOptions this text opt_options = [].
Proof.
  intros H.
  assert (readFeatureFromText transformWithOptions this text opt_options = None) as E.
  { unfold readFeatureFromText, decode.
    rewrite (loop_properties_nofix _ _ _ H). done. }
  split; [done|]. unfold readFeaturesFromText. by rewrite E.
Qed.

(** The header-only document, whose one property is collected and then
    dropped, and the empty document. *)
Lemma no_fix_no_feature_witness :
  (readFeaturesFromText (λ g _ (_ : option unit), g) (with_mode IGCZ.GPS) header_only None
     = []
   /\ properties (decode IGCZ.GPS header_only) !! "PLT" = Some "John Doe")
  /\ readFeaturesFromText (λ g _ (_ : option unit), g) (constructor None) "" None = [].
Proof.
  split; [split|].
  - apply (no_fix_no_feature (λ g _ (_ : option unit), g) (with_mode IGCZ.GPS)
             header_only None). vm_compute. reflexivity.
  - vm_compute. reflexivity.
  - apply (no_fix_no_feature (λ g _ (_ : option unit), g) (constructor None) "" None).
    vm_compute. reflexivity.
Defined.

(** ** C8: the date header *)



(** ** C9: the validity letter *)

Lemma fix_text_split m rest :
  fix_text m rest
  = fix_prefix m +:+ String (b10 m) (b11 m +:+ b12 m +:+ rest).
Proof.
  unfold fix_text, fix_prefix.
  rewrite !string_app_cons, !string_app_assoc, !string_app_cons.
  rewrite !string_app_assoc, !string_app_cons. done.
Qed.

Lemma fix_prefix_length m : groups_ok m -> String.length (fix_prefix m) = 24%nat.
Proof.
  intros [[L1 _] [L2 _] [L3 _] [L4 _] [L5 _] _ [L7 _] [L8 _] _ _ _ _].
  unfold fix_prefix. simpl String.length.
  rewrite !string_app_length. simpl String.length.
  rewrite !string_app_length. simpl String.length. lia.
Qed.

Lemma validity_variant_match l1 l2 :
  validity_variant l1 l2 ->
  exists m v, B_RECORD_RE l1 = Some m /\ B_RECORD_RE l2 = Some (with_validity v m).
Proof.
  intros (pre & v1 & v2 & post & Hl & Hv1 & Hv2 & -> & -> & [m Hm]).
  exists m, v2. split; [done|].
  destruct (B_RECORD_RE_inv _ _ Hm) as [Hok [rest Ht]].
  rewrite fix_text_split in Ht.
  apply string_app_inj in Ht as [-> Ht];
    [|by rewrite fix_prefix_length].
  injection Ht as -> ->.
  change (fix_prefix m) with (fix_prefix (with_validity v2 m)).
  change (String v2 (b11 m +:+ b12 m +:+ rest))
    with (String (b10 (with_validity v2 m))
            (b11 (with_validity v2 m) +:+ b12 (with_validity v2 m) +:+ rest)).
  rewrite <- fix_text_split. apply B_RECORD_RE_text.
  destruct Hok. by constructor.
Qed.

Lemma loop_body_validity_variant mode st l1 l2 :
  validity_variant l1 l2 -> loop_body mode st l1 = loop_body mode st l2.
Proof.
  intros (m & v & H1 & H2)%validity_variant_match.
  by rewrite (loop_body_fix _ _ _ _ H1), (loop_body_fix _ _ _ _ H2).
Qed.

Lemma loop_validity_variant mode lines1 lines2 : forall st,
  Forall2 (λ l1 l2, l1 = l2 \/ validity_variant l1 l2) lines1 lines2 ->
  loop mode st lines1 = loop mode st lines2.
Proof.
  intros st H. revert st. induction H as [|l1 l2 ls1 ls2 Hl _ IH]; intros st.
  - done.
  - unfold loop in *. simpl. destruct Hl as [->|Hl]; [apply IH|].
    rewrite (loop_body_validity_variant mode st l1 l2 Hl). apply IH.
Qed.

Lemma buffer_length_pos mode text :
  fixes text <> [] ->
  exists n, length (flatCoordinates (decode mode text)) = S n.
Proof.
  intros Hf. unfold decode. rewrite loop_flatCoordinates. simpl flatCoordinates.
  simpl app. unfold fixes in Hf.
  rewrite <- (stamped_fixes (date_of initial) (lastDateTime initial)) in Hf.
  destruct (stamped _ _ _) as [|[m t] l]; [done|].
  rewrite fmap_cons. cbn [concat]. rewrite length_app. unfold point at 1.
  cbn [fst snd app length]. by eexists.
Qed.

(** C9: two documents whose lines are pairwise the same, or the same fix
    line up to the validity letter at column 25 ([A] or [V] on either
    side), decode to the same locals, hence to the same feature (or to none
    on both sides).  Void fixes are kept: the points of the common track
    are, in order, the points of the fixes of either document, whatever
    their validity letters, with the same longitude, latitude, altitude and
    time; every fix marked [V] has its point in the track; and a document
    with a fix, void or not, reads to one feature. *)
Theorem validity_independent {ReadOptions : Type}
    (transformWithOptions : LineString -> bool -> option ReadOptions -> LineString)
    (this : IGC) (text1 text2 : string) (opt_options : option ReadOptions) :
  Forall2 (λ l1 l2, l1 = l2 \/ validity_variant l1 l2)
    (split_NEWLINE_RE text1) (split_NEWLINE_RE text2) ->
  decode (altitudeMode_ this) text1 = decode (altitudeMode_ this) text2
  /\ readFeatureFromText transformWithOptions this text1 opt_options
     = readFeatureFromText transformWithOptions this text2 opt_options
  /\ readFeaturesFromText transformWithOptions this text1 opt_options
     = readFeaturesFromText transformWithOptions this text2 opt_options
  /\ Forall2 (λ m p, exists t, p = point (altitudeMode_ this) m t)
       (fixes text1) (getCoordinates (track (altitudeMode_ this) text2))
  /\ Forall2 (λ m p, exists t, p = point (altitudeMode_ this) m t)
       (fixes text2) (getCoordinates (track (altitudeMode_ this) text1))
  /\ (forall m, m ∈ fixes text2 -> b10 m = "V"%char ->
      exists t, point (altitudeMode_ this) m t
                ∈ getCoordinates (track (altitudeMode_ this) text1))
  /\ (fixes text2 <> [] ->
      exists feature,
        readFeaturesFromText transformWithOptions this text1 opt_options
        = [feature]
        /\ f_geometry feature
           = transformWithOptions (track (altitudeMode_ this) text1) false
               opt_options).
Proof.
  intros H.
  assert (decode (altitudeMode_ this) text1 = decode (altitudeMode_ this) text2) as E
    by (by apply loop_validity_variant).
  assert (track (altitudeMode_ this) text1 = track (altitudeMode_ this) text2) as Et
    by (unfold track; by rewrite E).
  assert (readFeatureFromText transformWithOptions this text1 opt_options
     = readFeatureFromText transformWithOptions this text2 opt_options) as E'.
  { unfold readFeatureFromText. by rewrite E, Et. }
  assert (Forall2 (λ m p, exists t, p = point (altitudeMode_ this) m t)
       (fixes text2) (getCoordinates (track (altitudeMode_ this) text1))) as F2.
  { rewrite Et. apply track_points. intros m t _. by exists t. }
  split; [done|]. split; [done|].
  split; [unfold readFeaturesFromText; by rewrite E'|].
  split; [rewrite <- Et; apply track_points; intros m t _; by exists t|].
  split; [done|]. split.
  - intros m [i Hi]%list_elem_of_lookup _.
    destruct (Forall2_lookup_l _ _ _ _ _ F2 Hi) as (p & Hp & t & ->).
    exists t. apply list_elem_of_lookup. by exists i.
  - intros Hf. unfold readFeaturesFromText. rewrite E'.
    unfold readFeatureFromText.
    destruct (buffer_length_pos (altitudeMode_ this) text2 Hf) as [n Hn].
    rewrite bool_decide_eq_false_2 by (rewrite Hn; done).
    eexists. split; [done|]. simpl. by rewrite Et.
Qed.

(** [valid_fix] and [void_fix] read to the same features; the one fix of
    [void_fix] is marked [V], and its point is the one of the track. *)
Lemma validity_independent_witness :
  b10 <$> fixes void_fix = ["V"%char]
  /\ readFeaturesFromText (λ g _ (_ : option unit), g) (with_mode IGCZ.GPS) valid_fix None
     = readFeaturesFromText (λ g _ (_ : option unit), g) (with_mode IGCZ.GPS) void_fix None
  /\ Forall2 (λ m p, exists t, p = point IGCZ.GPS m t)
       (fixes void_fix) (getCoordinates (track IGCZ.GPS valid_fix))
  /\ exists feature,
       readFeaturesFromText (λ g _ (_ : option unit), g) (with_mode IGCZ.GPS)
         valid_fix None = [feature]
       /\ f_geometry feature = track IGCZ.GPS valid_fix.
Proof.
  assert (Forall2 (λ l1 l2, l1 = l2 \/ validity_variant l1 l2)
    (split_NEWLINE_RE valid_fix) (split_NEWLINE_RE void_fix)) as H.
  { change (split_NEWLINE_RE valid_fix)
      with ["HFDTE230820"; "B1011105000000N00100000EA0012300089"].
    change (split_NEWLINE_RE void_fix)
      with ["HFDTE230820"; "B1011105000000N00100000EV0012300089"].
    constructor; [by left|]. constructor; [|constructor].
    right. exists "B1011105000000N00100000E", "A"%char, "V"%char, "0012300089".
    repeat split; try reflexivity. by eexists; vm_compute. }
  destruct (validity_independent (λ g _ (_ : option unit), g)
    (with_mode IGCZ.GPS) valid_fix void_fix None H)
    as (_ & _ & H3 & _ & H5 & _ & H7).
  split; [vm_compute; reflexivity|]. split; [exact H3|]. split; [exact H5|].
  apply H7. vm_compute. discriminate.
Defined.

(** * Further properties of the reader *)

(** ** [text.split(NEWLINE_RE)] *)

Lemma split_cons_lines c s :
  no_terminator (String c "") = true ->
  split_NEWLINE_RE (String c s)
  = match split_NEWLINE_RE s with
    | l :: ls => String c l :: ls
    | [] => [String c ""]
    end.
Proof.
  simpl. unfold is_line_terminator, is_CR, is_LF.
  destruct (code c =? 10), (code c =? 13); simpl; try done.
Qed.

Lemma split_lines_no_terminator_aux s :
  Forall (λ l, no_terminator l = true) (split_NEWLINE_RE s)
  /\ forall c, Forall (λ l, no_terminator l = true) (split_NEWLINE_RE (String c s)).
Proof.
  induction s as [|c0 s [IH1 IH2]].
  - split; [by repeat constructor|]. intros c. simpl.
    unfold is_CR, is_LF. destruct (code c =? 13) eqn:E13; [by repeat constructor|].
    destruct (code c =? 10) eqn:E10; [by repeat constructor|].
    repeat constructor. simpl. unfold is_line_terminator. by rewrite E10, E13.
  - split; [apply IH2|]. intros c.
    change (split_NEWLINE_RE (String c (String c0 s))) with
      (if is_CR c then
         if is_LF c0 then "" :: split_NEWLINE_RE s
         else "" :: split_NEWLINE_RE (String c0 s)
       else if is_LF c then "" :: split_NEWLINE_RE (String c0 s)
       else match split_NEWLINE_RE (String c0 s) with
            | l :: ls => String c l :: ls
            | [] => [String c ""]
            end).
    specialize (IH2 c0). unfold is_CR, is_LF.
    destruct (code c =? 13) eqn:E13.
    { destruct (code c0 =? 10); by constructor. }
    destruct (code c =? 10) eqn:E10; [by constructor|].
    destruct (split_NEWLINE_RE (String c0 s)) as [|l ls].
    + repeat constructor. simpl. unfold is_line_terminator. by rewrite E10, E13.
    + inversion IH2; subst. constructor; [|done].
      simpl. unfold is_line_terminator. by rewrite E10, E13.
Qed.

Lemma split_nonempty text : split_NEWLINE_RE text <> [].
Proof.
  destruct text as [|c s]; [done|]. simpl.
  destruct (is_CR c); [by destruct s as [|c' s]; [|destruct (is_LF c')]|].
  destruct (is_LF c); [done|]. by destruct (split_NEWLINE_RE s).
Qed.

(** X1: no line that [split] returns contains a carriage return or a line
    feed, and there is always at least one line. *)
Theorem split_lines_no_terminator (text : string) :
  split_NEWLINE_RE text <> []
  /\ Forall (λ l, no_terminator l = true) (split_NEWLINE_RE text).
Proof. split; [apply split_nonempty|apply split_lines_no_terminator_aux]. Qed.

Lemma string_app_nil_r (s : string) : s +:+ "" = s.
Proof. induction s as [|c s IH]; [done|]. by rewrite string_app_cons, IH. Qed.

Lemma no_terminator_cons c s :
  no_terminator (String c s) = true ->
  no_terminator (String c "") = true /\ no_terminator s = true.
Proof. simpl. intros [-> ->]%andb_true_iff. done. Qed.

Lemma split_one_line l :
  no_terminator l = true -> split_NEWLINE_RE l = [l].
Proof.
  induction l as [|c l IH]; [done|].
  intros [Hc Hl]%no_terminator_cons.
  by rewrite (split_cons_lines _ _ Hc), (IH Hl).
Qed.

Lemma split_app_line l rest :
  no_terminator l = true ->
  split_NEWLINE_RE (l +:+ rest)
  = match split_NEWLINE_RE rest with
    | r :: rs => (l +:+ r) :: rs
    | [] => [l]
    end.
Proof.
  induction l as [|c l IH].
  - intros _. change ("" +:+ rest) with rest.
    pose proof (split_nonempty rest). by destruct (split_NEWLINE_RE rest).
  - intros [Hc Hl]%no_terminator_cons.
    rewrite string_app_cons, (split_cons_lines _ _ Hc), (IH Hl).
    by destruct (split_NEWLINE_RE rest).
Qed.

Lemma line_not_starts_with_LF l rest :
  no_terminator l = true -> starts_with_LF rest = false ->
  starts_with_LF (l +:+ rest) = false.
Proof.
  destruct l as [|c l]; [done|]. simpl. unfold is_line_terminator, is_LF.
  by destruct (code c =? 10).
Qed.

Lemma join_not_starts_with_LF lines :
  Forall (λ l, no_terminator l = true) lines ->
  starts_with_LF (join CR lines) = false.
Proof.
  intros Hl. destruct Hl as [|l ls Hl Hls]; [done|].
  destruct ls as [|l2 ls].
  - simpl. rewrite <- (string_app_nil_r l). by apply line_not_starts_with_LF.
  - change (join CR (l :: l2 :: ls)) with (l +:+ CR +:+ join CR (l2 :: ls)).
    by apply line_not_starts_with_LF.
Qed.

Lemma split_separator sep rest :
  sep = LF \/ (sep = CR /\ starts_with_LF rest = false) \/ sep = CRLF ->
  split_NEWLINE_RE (sep +:+ rest) = "" :: split_NEWLINE_RE rest.
Proof.
  intros [->|[[-> Hr]| ->]]; try done.
  change (CR +:+ rest) with (String "013" rest).
  destruct rest as [|c rest]; [done|]. simpl in *. by rewrite Hr.
Qed.

Lemma split_join_lines sep lines :
  lines <> [] ->
  Forall (λ l, no_terminator l = true) lines ->
  sep = LF \/ sep = CR \/ sep = CRLF ->
  split_NEWLINE_RE (join sep lines) = lines.
Proof.
  intros Hne Hl Hsep. induction Hl as [|l ls Hl Hls IH]; [done|].
  destruct ls as [|l2 ls]; [by apply split_one_line|].
  change (join sep (l :: l2 :: ls)) with (l +:+ sep +:+ join sep (l2 :: ls)).
  rewrite (split_app_line _ _ Hl), split_separator.
  - rewrite IH by done. by rewrite string_app_nil_r.
  - destruct Hsep as [->|[->| ->]]; [by left| |by right; right].
    right; left. split; [done|]. by apply join_not_starts_with_LF.
Qed.

(** X2: splitting is the inverse of joining: lines without carriage return
    and line feed, at least one, joined with any of the three separators,
    are split into the same lines; with X1, these are exactly the lists of
    lines [split] can return. *)
Theorem split_join (sep : string) (lines : list string) :
  lines <> [] ->
  Forall (λ l, no_terminator l = true) lines ->
  sep = LF \/ sep = CR \/ sep = CRLF ->
  split_NEWLINE_RE (join sep lines) = lines.
Proof. apply split_join_lines. Qed.

(** Three lines joined by carriage return and line feed. *)
Lemma split_join_witness :
  split_NEWLINE_RE (join CRLF ["HFDTE230820"; ""; "B10"]) = ["HFDTE230820"; ""; "B10"].
Proof.
  apply (split_join CRLF ["HFDTE230820"; ""; "B10"]).
  - discriminate.
  - repeat constructor.
  - right. right. reflexivity.
Defined.

(** X3: the reader does not depend on the newline convention: the same
    lines joined with line feeds, carriage returns or both read to the same
    features and the same locals. *)
Theorem newline_convention {ReadOptions : Type}
    (transformWithOptions : LineString -> bool -> option ReadOptions -> LineString)
    (this : IGC) (lines : list string) (sep1 sep2 : string)
    (opt_options : option ReadOptions) :
  lines <> [] ->
  Forall (λ l, no_terminator l = true) lines ->
  sep1 = LF \/ sep1 = CR \/ sep1 = CRLF ->
  sep2 = LF \/ sep2 = CR \/ sep2 = CRLF ->
  decode (altitudeMode_ this) (join sep1 lines)
    = loop (altitudeMode_ this) initial lines
  /\ readFeaturesFromText transformWithOptions this (join sep1 lines) opt_options
     = readFeaturesFromText transformWithOptions this (join sep2 lines) opt_options.
Proof.
  intros Hne Hl H1 H2.
  assert (forall sep, sep = LF \/ sep = CR \/ sep = CRLF ->
    decode (altitudeMode_ this) (join sep lines)
    = loop (altitudeMode_ this) initial lines) as Hd.
  { intros sep Hsep. unfold decode. by rewrite split_join_lines. }
  split; [by apply Hd|].
  unfold readFeaturesFromText, readFeatureFromText, track.
  by rewrite !Hd.
Qed.

(** The first scenario written with a line feed and with both characters. *)
Lemma newline_convention_witness :
  readFeaturesFromText (λ g _ (_ : option unit), g) (with_mode IGCZ.GPS)
    (join LF ["HFDTE230820"; "B1011105000000N00100000EA0012300089"]) None
  = readFeaturesFromText (λ g _ (_ : option unit), g) (with_mode IGCZ.GPS)
      (join CRLF ["HFDTE230820"; "B1011105000000N00100000EA0012300089"]) None.
Proof.
  refine (proj2 (newline_convention (λ g _ (_ : option unit), g)
    (with_mode IGCZ.GPS) ["HFDTE230820"; "B1011105000000N00100000EA0012300089"]
    LF CRLF None _ _ _ _)).
  - discriminate.
  - repeat constructor.
  - left. reflexivity.
  - right. right. reflexivity.
Defined.

(** ** [trim] *)

Lemma trim_start_spec s :
  exists a, s = a +:+ trim_start s /\ all_white_space a = true
            /\ starts_with_white_space (trim_start s) = false.
Proof.
  induction s as [|c s (a & Hs & Ha & Hh)]; [by exists ""|].
  simpl. destruct (is_white_space c) eqn:Hc.
  - exists (String c a). rewrite string_app_cons, <- Hs. simpl. by rewrite Hc, Ha.
  - exists "". simpl. by rewrite Hc.
Qed.

Lemma trim_end_spec s :
  exists b, s = trim_end s +:+ b /\ all_white_space b = true
            /\ ends_with_white_space (trim_end s) = false.
Proof.
  induction s as [|c s (b & Hs & Hb & He)]; [by exists ""|].
  simpl. destruct (trim_end s) as [|a t] eqn:Et.
  - change ("" +:+ b) with b in Hs. subst b.
    destruct (is_white_space c) eqn:Hc.
    + exists (String c s). simpl. by rewrite Hc, Hb.
    + exists s. simpl. by rewrite Hc.
  - exists b. rewrite string_app_cons, <- Hs. done.
Qed.

Lemma trim_end_start s :
  starts_with_white_space s = false ->
  starts_with_white_space (trim_end s) = false.
Proof.
  destruct s as [|c s]; [done|]. simpl. intros Hc.
  destruct (trim_end s); [by rewrite Hc|done].
Qed.

Lemma trim_start_id s :
  starts_with_white_space s = false -> trim_start s = s.
Proof. destruct s as [|c s]; [done|]. simpl. by intros ->. Qed.

Lemma trim_end_idempotent s : trim_end (trim_end s) = trim_end s.
Proof.
  induction s as [|c s IH]; [done|].
  simpl. destruct (trim_end s) as [|a t] eqn:Et.
  - destruct (is_white_space c) eqn:Hc; [done|]. simpl. by rewrite Hc.
  - change (trim_end (String c (String a t)))
      with (match trim_end (String a t) with
            | "" => if is_white_space c then "" else String c ""
            | String a0 t0 => String c (String a0 t0)
            end).
    by rewrite IH.
Qed.

Lemma trim_idempotent s : trim (trim s) = trim s.
Proof.
  unfold trim. destruct (trim_start_spec s) as (_ & _ & _ & Hh).
  rewrite (trim_start_id (trim_end (trim_start s))) by (by apply trim_end_start).
  apply trim_end_idempotent.
Qed.

(** X4: [trim] removes exactly the white space at both ends: the string is
    a run of white space, the trimmed string, and a run of white space; the
    trimmed string neither starts nor ends with white space; trimming
    twice is trimming once. *)
Theorem trim_spec (s : string) :
  (exists a b, s = a +:+ trim s +:+ b
     /\ all_white_space a = true /\ all_white_space b = true)
  /\ starts_with_white_space (trim s) = false
  /\ ends_with_white_space (trim s) = false
  /\ trim (trim s) = trim s.
Proof.
  destruct (trim_start_spec s) as (a & Hs & Ha & Hh).
  destruct (trim_end_spec (trim_start s)) as (b & Ht & Hb & He).
  split; [|split; [|split]].
  - exists a, b. unfold trim. by rewrite <- Ht.
  - by apply trim_end_start.
  - done.
  - apply trim_idempotent.
Qed.

(** ** Generic headers and the property mapping *)

Lemma not_H_no_header c line :
  is_char "H" c = false ->
  HFDTE_RECORD_RE (String c line) = None /\ H_RECORD_RE (String c line) = None.
Proof.
  intros Hc. unfold HFDTE_RECORD_RE, H_RECORD_RE. cbn [take_literal].
  by rewrite Hc.
Qed.

Lemma properties_push_fix mode st m :
  properties (push_fix mode st m) = properties st.
Proof. done. Qed.

(** The property mapping after one line. *)
Lemma properties_loop_body mode st line :
  properties (loop_body mode st line)
  = match header_of line with
    | Some m => <[h1 m := trim (h2 m)]> (properties st)
    | None => properties st
    end.
Proof.
  unfold loop_body, header_of. destruct line as [|c line]; [done|].
  cbn [charAt0_is]. destruct (is_char "H" c) eqn:HH.
  - apply is_char_true in HH as ->.
    change (is_char "B" "H") with false. cbn iota.
    destruct (HFDTE_RECORD_RE _); [done|]. by destruct (H_RECORD_RE _).
  - destruct (not_H_no_header c line HH) as [-> ->].
    destruct (is_char "B" c); [|done]. by destruct (B_RECORD_RE _).
Qed.

Lemma lazy_until_colon_app mid v :
  no_terminator mid = true -> no_colon mid = true ->
  lazy_until_colon (mid +:+ String ":" v) = Some (dot_star v).
Proof.
  induction mid as [|c mid IH]; [done|].
  rewrite string_app_cons. simpl.
  intros [Hc Hm]%andb_true_iff [Hk Hn]%andb_true_iff.
  apply negb_true_iff in Hc, Hk. rewrite Hk, Hc. by apply IH.
Qed.

Lemma dot_star_id v : no_terminator v = true -> dot_star v = v.
Proof.
  induction v as [|c v IH]; [done|]. simpl.
  intros [Hc Hv]%andb_true_iff. apply negb_true_iff in Hc.
  by rewrite Hc, IH.
Qed.

Lemma dot_star_no_terminator v : no_terminator (dot_star v) = true.
Proof.
  induction v as [|c v IH]; [done|]. simpl.
  destruct (is_line_terminator c) eqn:Hc; [done|]. simpl. by rewrite Hc.
Qed.

(** X5: a line made of [H], any character but a line terminator, three
    upper-case letters, a colon-free run, a colon and a value is matched by
    [H_RECORD_RE] with the three letters as key and everything after the
    FIRST colon as value; unless it is a date header, the loop then maps
    the key to the trimmed value and touches no other variable. *)
Theorem generic_header (altitudeMode : string) (st : Locals)
    (c k1 k2 k3 : ascii) (mid v : string) :
  is_line_terminator c = false ->
  is_upper k1 = true -> is_upper k2 = true -> is_upper k3 = true ->
  no_terminator mid = true -> no_colon mid = true -> no_terminator v = true ->
  let line :=
    String "H" (String c (String k1 (String k2 (String k3
      (mid +:+ String ":" v))))) in
  let key := String k1 (String k2 (String k3 "")) in
  H_RECORD_RE line = Some {| h1 := key; h2 := v |}
  /\ (HFDTE_RECORD_RE line = None ->
      let st' := loop_body altitudeMode st line in
      properties st' = <[key := trim v]> (properties st)
      /\ flatCoordinates st' = flatCoordinates st
      /\ date_of st' = date_of st
      /\ lastDateTime st' = lastDateTime st).
Proof.
  intros Hc H1 H2 H3 Hm Hn Hv line key.
  assert (H_RECORD_RE line = Some {| h1 := key; h2 := v |}) as HH.
  { unfold H_RECORD_RE, line.
    change (take_literal "H" (String "H" ?s)) with (Some s).
    cbn [mbind option_bind take_class]. rewrite Hc. cbn [negb mbind option_bind].
    rewrite (take_class_cons _ _ _ H1). cbn [mbind option_bind].
    rewrite (take_class_cons _ _ _ H2). cbn [mbind option_bind].
    rewrite (take_class_cons _ _ _ H3). cbn [mbind option_bind].
    rewrite (lazy_until_colon_app _ _ Hm Hn), (dot_star_id _ Hv). done. }
  split; [done|]. intros HD st'.
  assert (st' = set_property st {| h1 := key; h2 := v |}) as ->; [|done].
  subst st'. unfold loop_body. change (charAt0_is "B" line) with false.
  change (charAt0_is "H" line) with true. cbn iota. by rewrite HD, HH.
Qed.

(** The pilot header, with a second colon inside the value. *)
Lemma generic_header_witness :
  H_RECORD_RE "HFPLTPILOTINCHARGE: Doe: John "
  = Some {| h1 := "PLT"; h2 := " Doe: John " |}.
Proof.
  exact (proj1 (generic_header IGCZ.NONE initial "F" "P" "L" "T"
    "PILOTINCHARGE" " Doe: John " eq_refl eq_refl eq_refl eq_refl
    eq_refl eq_refl eq_refl)).
Defined.

Lemma H_RECORD_RE_inv line m :
  H_RECORD_RE line = Some m ->
  String.length (h1 m) = 3%nat /\ all_upper (h1 m) = true
  /\ no_terminator (h2 m) = true.
Proof.
  unfold H_RECORD_RE. intros H.
  destruct (take_literal "H" line) as [s0|]; [|done].
  cbn [mbind option_bind] in H.
  repeat match type of H with
  | context [take_class ?p ?s] =>
      let E := fresh "E" in
      destruct (take_class p s) as [[? ?]|] eqn:E; [|done];
      cbn [mbind option_bind] in H;
      apply take_class_inv in E as (-> & ?)
  end.
  destruct (lazy_until_colon _) as [v|] eqn:Ev; [|done].
  cbn [mbind option_bind] in H. simplify_eq. simpl.
  split; [done|].
  split; [by repeat match goal with E : is_upper _ = true |- _ => rewrite E; clear E end|].
  revert Ev. match goal with |- lazy_until_colon ?s = _ -> _ => generalize s end.
  intros s. induction s as [|c s IH]; [done|]. simpl.
  destruct (is_char ":" c).
  - intros [= <-]. apply dot_star_no_terminator.
  - destruct (is_line_terminator c); [done|]. apply IH.
Qed.

Lemma header_of_inv line m :
  header_of line = Some m ->
  String.length (h1 m) = 3%nat /\ all_upper (h1 m) = true
  /\ no_terminator (h2 m) = true.
Proof.
  unfold header_of. destruct (HFDTE_RECORD_RE line); [done|].
  apply H_RECORD_RE_inv.
Qed.

Lemma loop_cons mode st line lines :
  loop mode st (line :: lines) = loop mode (loop_body mode st line) lines.
Proof. done. Qed.

(** Lines without a header for the key leave its entry alone. *)
Lemma properties_loop_other_keys mode lines key : forall st,
  (forall line m, line ∈ lines -> header_of line = Some m -> h1 m <> key) ->
  properties (loop mode st lines) !! key = properties st !! key.
Proof.
  induction lines as [|line lines IH]; intros st H; [done|].
  rewrite loop_cons, IH, properties_loop_body.
  - destruct (header_of line) as [m|] eqn:Hm; [|done].
    apply lookup_insert_ne. eapply H; [|done]. by left.
  - intros l m Hl. apply H. by right.
Qed.

(** X6: for every key the last generic header wins: if a line of the
    document is a generic header for a key and no later line is one for the
    same key, the property mapping of the decoded document has the trimmed
    value of that line at the key, whatever came before. *)
Theorem last_header_wins (altitudeMode text : string)
    (before after : list string) (line : string) (m : HMatch) :
  split_NEWLINE_RE text = before ++ line :: after ->
  header_of line = Some m ->
  (forall line' m', line' ∈ after -> header_of line' = Some m' -> h1 m' <> h1 m) ->
  properties (decode altitudeMode text) !! h1 m = Some (trim (h2 m)).
Proof.
  intros Hs Hm Hafter. unfold decode. rewrite Hs, loop_app, loop_cons.
  rewrite (properties_loop_other_keys _ _ _ _ Hafter).
  rewrite properties_loop_body, Hm. apply lookup_insert_eq.
Qed.

(** The second pilot header of [two_pilots] wins, trimmed. *)
Lemma last_header_wins_witness :
  properties (decode IGCZ.GPS two_pilots) !! "PLT" = Some "second".
Proof.
  refine (last_header_wins IGCZ.GPS two_pilots
    ["HFPLTPILOT: first"; "B1011105000000N00100000EA0012300089"]
    ["HFCLBCLUB:third"] "HFPLTPILOT:second "
    {| h1 := "PLT"; h2 := "second " |} _ _ _).
  - vm_compute. reflexivity.
  - vm_compute. reflexivity.
  - intros line' m' ->%list_elem_of_singleton.
    vm_compute. intros [= <-]. discriminate.
Defined.

(** Where an entry of the property mapping comes from. *)
Lemma properties_loop_origin mode lines key v : forall st,
  properties (loop mode st lines) !! key = Some v ->
  properties st !! key = Some v
  \/ exists line m, line ∈ lines /\ header_of line = Some m
                    /\ h1 m = key /\ v = trim (h2 m).
Proof.
  induction lines as [|line lines IH]; intros st H; [by left|].
  rewrite loop_cons in H. apply IH in H as [H|(l & m & Hl & Hm & Hk & Hv)].
  - rewrite properties_loop_body in H.
    destruct (header_of line) as [m|] eqn:Hm; [|by left].
    destruct (decide (h1 m = key)) as [<-|Hne].
    + rewrite lookup_insert_eq in H. injection H as <-.
      right. exists line, m. split; [by left|done].
    + rewrite lookup_insert_ne in H by done. by left.
  - right. exists l, m. split; [by right|done].
Qed.

(** X7: every entry of the property mapping of a decoded document comes
    from a generic header line of the document: its key is three
    upper-case letters, and its value is the trimmed value of that line, so
    it neither starts nor ends with white space and holds no line
    terminator. *)
Theorem properties_shape (altitudeMode text key v : string) :
  properties (decode altitudeMode text) !! key = Some v ->
  String.length key = 3%nat /\ all_upper key = true
  /\ starts_with_white_space v = false /\ ends_with_white_space v = false
  /\ exists line m,
       line ∈ split_NEWLINE_RE text /\ header_of line = Some m
       /\ h1 m = key /\ v = trim (h2 m).
Proof.
  intros H. apply properties_loop_origin in H as [H|(l & m & Hl & Hm & <- & ->)].
  { cbn [initial properties] in H. by rewrite lookup_empty in H. }
  destruct (header_of_inv _ _ Hm) as (HL & HU & _).
  destruct (trim_start_spec (h2 m)) as (_ & _ & _ & Hh).
  destruct (trim_end_spec (trim_start (h2 m))) as (_ & _ & _ & He).
  repeat split; try done.
  - by apply trim_end_start.
  - by exists l, m.
Qed.

(** The club entry of [two_pilots]. *)
Lemma properties_shape_witness :
  String.length "CLB" = 3%nat /\ all_upper "CLB" = true
  /\ starts_with_white_space "third" = false
  /\ ends_with_white_space "third" = false.
Proof.
  pose proof (properties_shape IGCZ.NONE two_pilots "CLB" "third") as H.
  destruct H as (H1 & H2 & H3 & H4 & _); [vm_compute; reflexivity|].
  exact (conj H1 (conj H2 (conj H3 H4))).
Defined.

(** ** The buffer and the feature *)

Lemma concat_length_stride n (ps : list (list Q)) :
  Forall (λ p, length p = n) ps -> length (concat ps) = (n * length ps)%nat.
Proof.
  induction 1 as [|p ps Hp _ IH]; simpl; [lia|]. rewrite length_app. lia.
Qed.

(** X8: under every altitude mode, recognized or not, the buffer holds
    exactly [stride] numbers per decoded fix, [stride] being that of the
    layout given to the line string, and the line string has one point per
    decoded fix. *)
Theorem buffer_length (altitudeMode text : string) :
  length (flatCoordinates (decode altitudeMode text))
  = (stride (ls_layout (track altitudeMode text)) * length (fixes text))%nat
  /\ length (getCoordinates (track altitudeMode text)) = length (fixes text).
Proof.
  split.
  - unfold decode. rewrite loop_flatCoordinates. simpl flatCoordinates.
    simpl app. unfold fixes.
    rewrite <- (stamped_fixes (date_of initial) (lastDateTime initial)).
    rewrite (concat_length_stride
      (stride (ls_layout (track altitudeMode text)))).
    + by rewrite !length_fmap.
    + apply Forall_fmap, Forall_true. intros [m t]. apply point_length.
  - rewrite getCoordinates_track. unfold fixes.
    rewrite <- (stamped_fixes initial_date (-1)). by rewrite !length_fmap.
Qed.

(** X9: as soon as one line decodes as a fix, [readFeaturesFromText]
    returns exactly one feature: its geometry is what
    [transformWithOptions] makes of the track, its properties are the
    collected ones. *)
Theorem one_feature {ReadOptions : Type}
    (transformWithOptions : LineString -> bool -> option ReadOptions -> LineString)
    (this : IGC) (text : string) (opt_options : option ReadOptions) :
  fixes text <> [] ->
  readFeaturesFromText transformWithOptions this text opt_options
  = [ {| f_geometry :=
           transformWithOptions (track (altitudeMode_ this) text) false opt_options;
         f_properties := properties (decode (altitudeMode_ this) text) |} ].
Proof.
  intros Hf. unfold readFeaturesFromText, readFeatureFromText.
  destruct (buffer_length_pos (altitudeMode_ this) text Hf) as [n Hn].
  rewrite bool_decide_eq_false_2; [done|]. rewrite Hn. done.
Qed.

(** The first scenario gives one feature. *)
Lemma one_feature_witness :
  length (readFeaturesFromText (λ g _ (_ : option unit), g) (with_mode IGCZ.GPS)
            valid_fix None) = 1%nat.
Proof.
  rewrite (one_feature (λ g _ (_ : option unit), g) (with_mode IGCZ.GPS)
             valid_fix None); [reflexivity|].
  vm_compute. discriminate.
Defined.

(** ** The timestamps *)

Lemma sequence_shape cands : forall last,
  Forall2 (λ c t, t = c \/ t = c + Date.msPerDay) cands (sequence last cands).
Proof.
  induction cands as [|c cands IH]; intros last; simpl; constructor; [|apply IH].
  unfold stamp. destruct (c <? last); auto.
Qed.

(** X10: every time component is the candidate of its fix (the calendar
    timestamp of the date context in force and the fix's time), or that
    candidate plus exactly one day; candidates are never negative; and the
    first fix of a document always keeps its candidate. *)
Theorem timestamps_shape (altitudeMode text : string) :
  Forall2
    (λ c t, 0 <= c /\ (t = seconds c \/ t = seconds (c + Date.msPerDay)))
    (candidates initial_date (split_NEWLINE_RE text))
    (time_components (track altitudeMode text))
  /\ head (time_components (track altitudeMode text))
     = seconds <$> head (candidates initial_date (split_NEWLINE_RE text)).
Proof.
  rewrite time_components_track.
  pose proof (candidates_nonneg (split_NEWLINE_RE text) _ initial_date_ok) as Hn.
  split.
  - apply Forall2_fmap_r.
    pose proof (sequence_shape (candidates initial_date (split_NEWLINE_RE text)) (-1)) as Hs.
    revert Hn Hs. generalize (sequence (-1) (candidates initial_date (split_NEWLINE_RE text))).
    generalize (candidates initial_date (split_NEWLINE_RE text)).
    intros cs ts Hn Hs. induction Hs as [|c t cs ts Hct _ IH]; [constructor|].
    inversion Hn; subst. constructor; [|by apply IH].
    split; [done|]. destruct Hct as [->| ->]; auto.
  - destruct (candidates _ _) as [|c cs]; [done|]. simpl.
    inversion Hn; subst. rewrite stamp_id by lia. done.
Qed.

(** ** What the track and the properties depend on *)

Lemma stamped_filter lines : forall dc last,
  stamped dc last (List.filter fix_or_date lines) = stamped dc last lines.
Proof.
  induction lines as [|line lines IH]; intros dc last; [done|].
  simpl. unfold fix_or_date at 1.
  destruct (B_RECORD_RE line) as [m|] eqn:HB.
  - simpl. by rewrite HB, IH.
  - destruct (HFDTE_RECORD_RE line) as [d|] eqn:HD; [|apply IH].
    simpl. by rewrite HB, HD, IH.
Qed.

(** X11: the track depends on the fix lines and the date-header lines only:
    two documents with the same such lines, in the same order, give the
    same track, whatever other lines (generic headers, other records,
    malformed or blank lines) stand between them. *)
Theorem track_ignores_other_lines (altitudeMode text1 text2 : string) :
  List.filter fix_or_date (split_NEWLINE_RE text1)
    = List.filter fix_or_date (split_NEWLINE_RE text2) ->
  track altitudeMode text1 = track altitudeMode text2.
Proof.
  intros H. unfold track, decode. f_equal.
  rewrite !loop_flatCoordinates.
  rewrite <- (stamped_filter (split_NEWLINE_RE text1)).
  rewrite <- (stamped_filter (split_NEWLINE_RE text2)).
  by rewrite H.
Qed.

Lemma track_ignores_other_lines_witness :
  track IGCZ.BAROMETRIC padded_fix = track IGCZ.BAROMETRIC valid_fix.
Proof.
  apply (track_ignores_other_lines IGCZ.BAROMETRIC padded_fix valid_fix).
  vm_compute. reflexivity.
Defined.

Lemma properties_loop_fold mode lines : forall st,
  properties (loop mode st lines)
  = fold_left (λ p m, <[h1 m := trim (h2 m)]> p) (omap header_of lines)
      (properties st).
Proof.
  induction lines as [|line lines IH]; intros st; [done|].
  rewrite loop_cons, IH, properties_loop_body. simpl.
  by destruct (header_of line).
Qed.

(** X12: the property mapping depends on the generic header lines only: it
    is the same for every altitude mode, and two documents with the same
    generic headers, in the same order, give the same mapping; fixes, date
    headers and other lines do not touch it. *)
Theorem properties_depend_on_headers (mode1 mode2 text1 text2 : string) :
  omap header_of (split_NEWLINE_RE text1) = omap header_of (split_NEWLINE_RE text2) ->
  properties (decode mode1 text1) = properties (decode mode2 text2).
Proof.
  intros H. unfold decode. by rewrite !properties_loop_fold, H.
Qed.

Lemma properties_depend_on_headers_witness :
  properties (decode IGCZ.GPS padded_fix)
  = properties (decode IGCZ.NONE "HFPLTPILOT:John").
Proof.
  apply (properties_depend_on_headers IGCZ.GPS IGCZ.NONE padded_fix "HFPLTPILOT:John").
  vm_compute. reflexivity.
Defined.

(** X13: an altitude mode other than ['none'] only adds the third
    component: without it, every point is the point the same document
    gives under ['none']. *)
Theorem mode_only_adds_z (altitudeMode text : string) :
  altitudeMode <> IGCZ.NONE ->
  drop_z <$> getCoordinates (track altitudeMode text)
  = getCoordinates (track IGCZ.NONE text).
Proof.
  intros Hm. rewrite !getCoordinates_track, <- list_fmap_compose.
  apply list_fmap_ext. intros _ [m t] _. simpl. unfold point.
  by rewrite bool_decide_eq_false_2.
Qed.

Lemma mode_only_adds_z_witness :
  drop_z <$> getCoordinates (track "agl" padded_fix)
  = getCoordinates (track IGCZ.NONE padded_fix).
Proof. apply (mode_only_adds_z "agl" padded_fix). discriminate. Defined.

(** ** Extensions of a fix line and the long date header *)

Lemma fix_text_app m rest ext :
  fix_text m rest +:+ ext = fix_text m (rest +:+ ext).
Proof.
  unfold fix_text.
  by rewrite ?string_app_cons, ?string_app_assoc, ?string_app_cons,
    ?string_app_assoc, ?string_app_cons, ?string_app_assoc.
Qed.

(** X14: what follows the 35 columns of a fix line is free: appending any
    text to a line that [B_RECORD_RE] matches gives the same match, hence
    the same point and timestamp. *)
Theorem fix_extension_ignored (altitudeMode : string) (st : Locals)
    (line ext : string) :
  is_Some (B_RECORD_RE line) ->
  B_RECORD_RE (line +:+ ext) = B_RECORD_RE line
  /\ loop_body altitudeMode st (line +:+ ext) = loop_body altitudeMode st line.
Proof.
  intros [m Hm].
  assert (B_RECORD_RE (line +:+ ext) = Some m) as He.
  { destruct (B_RECORD_RE_inv _ _ Hm) as [Hok [rest ->]].
    rewrite fix_text_app. by apply B_RECORD_RE_text. }
  split; [congruence|].
  by rewrite (loop_body_fix _ _ _ _ Hm), (loop_body_fix _ _ _ _ He).
Qed.

(** The fix of the first scenario with an extension. *)
Lemma fix_extension_ignored_witness :
  loop_body IGCZ.GPS initial ("B1011105000000N00100000EA0012300089" +:+ "0421234")
  = loop_body IGCZ.GPS initial "B1011105000000N00100000EA0012300089".
Proof.
  refine (proj2 (fix_extension_ignored IGCZ.GPS initial
    "B1011105000000N00100000EA0012300089" "0421234" _)).
  by eexists; vm_compute.
Defined.

Lemma header_of_loop_body mode st line m :
  header_of line = Some m -> loop_body mode st line = set_property st m.
Proof.
  unfold header_of, loop_body. destruct line as [|c line]; [done|].
  cbn [charAt0_is]. destruct (is_char "H" c) eqn:HH.
  - apply is_char_true in HH as ->. change (is_char "B" "H") with false.
    cbn iota. destruct (HFDTE_RECORD_RE _); [done|]. by intros ->.
  - by destruct (not_H_no_header c line HH) as [-> ->].
Qed.

(** X15: a date written in the long form, [HFDTEDATE:] and a value, is no
    date header for the reader: [HFDTE_RECORD_RE] wants the digits right
    after [HFDTE]; the line is taken as the generic header [DTE], so the
    date context stays what it was and the value lands, trimmed, in the
    property mapping. *)
Theorem long_date_header (altitudeMode : string) (st : Locals) (v : string) :
  no_terminator v = true ->
  let st' := loop_body altitudeMode st ("HFDTEDATE:" +:+ v) in
  HFDTE_RECORD_RE ("HFDTEDATE:" +:+ v) = None
  /\ date_of st' = date_of st
  /\ lastDateTime st' = lastDateTime st
  /\ flatCoordinates st' = flatCoordinates st
  /\ properties st' = <["DTE" := trim v]> (properties st).
Proof.
  intros Hv st'.
  assert (header_of ("HFDTEDATE:" +:+ v) = Some {| h1 := "DTE"; h2 := v |}) as H.
  { unfold header_of.
    change (HFDTE_RECORD_RE ("HFDTEDATE:" +:+ v)) with (@None DMatch).
    unfold H_RECORD_RE.
    change (take_literal "H" ("HFDTEDATE:" +:+ v)) with (Some ("FDTEDATE:" +:+ v)).
    cbn [mbind option_bind].
    change (take_class _ ("FDTEDATE:" +:+ v)) with (Some ("F"%char, "DTEDATE:" +:+ v)).
    cbn [mbind option_bind].
    change (take_class is_upper ("DTEDATE:" +:+ v)) with (Some ("D"%char, "TEDATE:" +:+ v)).
    cbn [mbind option_bind].
    change (take_class is_upper ("TEDATE:" +:+ v)) with (Some ("T"%char, "EDATE:" +:+ v)).
    cbn [mbind option_bind].
    change (take_class is_upper ("EDATE:" +:+ v)) with (Some ("E"%char, "DATE:" +:+ v)).
    cbn [mbind option_bind].
    change (lazy_until_colon ("DATE:" +:+ v)) with (Some (dot_star v)).
    cbn [mbind option_bind]. by rewrite (dot_star_id _ Hv). }
  split; [done|]. subst st'. by rewrite (header_of_loop_body _ _ _ _ H).
Qed.

(** The date of the first scenario in the long form. *)
Lemma long_date_header_witness :
  date_of (loop_body IGCZ.NONE initial ("HFDTEDATE:" +:+ "230820,01")) = initial_date
  /\ properties (loop_body IGCZ.NONE initial ("HFDTEDATE:" +:+ "230820,01")) !! "DTE"
     = Some "230820,01".
Proof.
  pose proof (long_date_header IGCZ.NONE initial "230820,01" eq_refl)
    as (_ & H1 & _ & _ & H2).
  split; [exact H1|]. rewrite H2. vm_compute. reflexivity.
Defined.
